(** * SolarVisionAI (src/script.js): zone store, metrics and aggregation

    A shallow embedding of the zone/metrics core of the [SolarVisionAI]
    class: the metric formulas ([calculateEnergyOutput],
    [calculateEfficiencyScore], [calculateMaxRecommendedPanels]), the
    aggregation done by [updateZoneAnalysis], the zone store with its
    selection and edit-session state ([onDrawCreated], [onDrawEdited],
    [onDrawDeleted], [selectZone], [editZone], [saveZoneEdit],
    [cancelZoneEdit], [deleteZone]), the financial figures of
    [generateOptimizationResults] / [optimizeAllZones], and the sunshine
    post-processing of [fetchSunlightData] / [calculateDailyAverage].
    The callback that [onDrawCreated] hands to [setTimeout] is an event of
    its own: it runs later, after whatever else has happened.

    Numbers.  JavaScript numbers are IEEE-754 doubles.  They are modelled
    by [num]: a rational, or one of the three special values [+Infinity],
    [-Infinity], [NaN].  The special values follow IEEE (so [x / 0] and
    [0 / 0] behave as in JavaScript).  Every decimal literal and every
    result of [+], [*] and [/] is rounded to the nearest number with a
    53-bit significand, ties to even ([round64]), as the hardware does;
    [Math.floor], [Math.round], [Math.min], [Math.abs] and the
    comparisons are exact on doubles and are exact here.  The exponent
    range is not bounded (no overflow to infinity and no gradual underflow
    beyond 1.8e308 and 2.2e-308), and [-0] is identified with [+0].

    Objects.  Zone records and Leaflet layers are mutable objects that the
    program shares by reference ([selectedZone] and [currentEditingZone]
    alias elements of [drawingZones]).  They live in two stores indexed by
    reference, and the program state holds references. *)

From stdpp Require Import base numbers functions strings gmap list.
From Stdlib Require Import QArith Qcanon Qround Qpower Lia Lqa.

(* ===================================================================== *)
(** ** JavaScript numbers *)
(* ===================================================================== *)

(** [2^e] for an integer [e] of either sign. *)
Definition pow2 (e : Z) : Q := ((2 # 1) ^ e)%Q.

(** The binary exponent of a positive rational:
    [2^(ilog2 x) <= x < 2^(ilog2 x + 1)]. *)
Definition ilog2 (x : Q) : Z :=
  let k := (Z.log2 (Qnum x) - Z.log2 (Zpos (Qden x)))%Z in
  if Qle_bool (pow2 k) x then k else (k - 1)%Z.

(** The nearest integer, the even one of the two at a tie. *)
Definition rne (x : Q) : Z :=
  let f := Qfloor x in
  match Qcompare (x - inject_Z f)%Q (1 # 2)%Q with
  | Lt => f
  | Gt => (f + 1)%Z
  | Eq => if Z.even f then f else (f + 1)%Z
  end.

(** The double nearest to a positive rational: its significand is scaled
    into [2^52, 2^53) and rounded to an integer. *)
Definition roundPos (x : Q) : Q :=
  let e := (ilog2 x - 52)%Z in (inject_Z (rne (x / pow2 e)%Q) * pow2 e)%Q.

Definition roundQ (x : Q) : Q :=
  match Qnum x with
  | Z0 => 0%Q
  | Zpos _ => roundPos x
  | Zneg _ => (- roundPos (- x))%Q
  end.

(** Rounding to the nearest double (round to nearest, ties to even). *)
Definition round64 (q : Qc) : Qc := Q2Qc (roundQ q).

Arguments round64 : simpl never.

(** One half, which is a double. *)
Definition half : Qc := Q2Qc (1 # 2).

Inductive num : Type :=
  | Fin (q : Qc)
  | PInf
  | NInf
  | NaN.

(** The double denoted by the decimal literal [n / d]. *)
Definition dec (n : Z) (d : positive) : Qc := round64 (Q2Qc (n # d)).

(** Integer literal. *)
Definition int (n : Z) : num := Fin (Qc_of_Z n).

(** Equality test on numbers, used to decide closed equations; unlike
    [===] it is only ever applied here to numbers that are not [NaN]. *)
Definition num_eqb (x y : num) : bool :=
  match x, y with
  | Fin a, Fin b => match (a ?= b)%Qc with Eq => true | _ => false end
  | PInf, PInf | NInf, NInf => true
  | _, _ => false
  end.

(** [x + y] *)
Definition add (x y : num) : num :=
  match x, y with
  | NaN, _ | _, NaN => NaN
  | Fin a, Fin b => Fin (round64 (a + b))
  | PInf, NInf | NInf, PInf => NaN
  | PInf, _ | _, PInf => PInf
  | NInf, _ | _, NInf => NInf
  end.

(** An infinity of the sign of [c] ([NaN] for the sign of zero). *)
Definition inf_of_sign (c : comparison) : num :=
  match c with
  | Gt => PInf
  | Lt => NInf
  | Eq => NaN
  end.

(** [x * y]: infinity times zero is [NaN]. *)
Definition mul (x y : num) : num :=
  match x, y with
  | NaN, _ | _, NaN => NaN
  | Fin a, Fin b => Fin (round64 (a * b))
  | PInf, Fin b | Fin b, PInf => inf_of_sign (b ?= 0)%Qc
  | NInf, Fin b | Fin b, NInf => inf_of_sign (CompOpp (b ?= 0)%Qc)
  | PInf, PInf | NInf, NInf => PInf
  | PInf, NInf | NInf, PInf => NInf
  end.

(** [x / y]: a nonzero finite number over zero is an infinity of its sign,
    [0 / 0] and [Infinity / Infinity] are [NaN]. *)
Definition div (x y : num) : num :=
  match x, y with
  | NaN, _ | _, NaN => NaN
  | Fin a, Fin b =>
      match (b ?= 0)%Qc with
      | Eq => inf_of_sign (a ?= 0)%Qc
      | _ => Fin (round64 (a / b))
      end
  | Fin _, PInf | Fin _, NInf => Fin 0%Qc
  | PInf, Fin b => match (b ?= 0)%Qc with Lt => NInf | _ => PInf end
  | NInf, Fin b => match (b ?= 0)%Qc with Lt => PInf | _ => NInf end
  | PInf, PInf | PInf, NInf | NInf, PInf | NInf, NInf => NaN
  end.

(** [x > y]; false as soon as one side is [NaN]. *)
Definition gt (x y : num) : bool :=
  match x, y with
  | NaN, _ | _, NaN => false
  | Fin a, Fin b => match (a ?= b)%Qc with Gt => true | _ => false end
  | PInf, PInf => false
  | PInf, _ => true
  | _, NInf => match x with NInf => false | _ => true end
  | _, _ => false
  end.

(** Truthiness of a number: [0] and [NaN] are falsy. *)
Definition truthy (x : num) : bool :=
  match x with
  | Fin q => match (q ?= 0)%Qc with Eq => false | _ => true end
  | PInf | NInf => true
  | NaN => false
  end.

(** [x || y] on numbers. *)
Definition or_else (x y : num) : num := if truthy x then x else y.

(** [Math.min(x, y)] *)
Definition Math_min (x y : num) : num :=
  match x, y with
  | NaN, _ | _, NaN => NaN
  | NInf, _ | _, NInf => NInf
  | PInf, z | z, PInf => z
  | Fin a, Fin b => match (a ?= b)%Qc with Gt => Fin b | _ => Fin a end
  end.

(** [Math.floor(x)] *)
Definition Math_floor (x : num) : num :=
  match x with
  | Fin q => int (Qfloor q)
  | _ => x
  end.

(** [Math.round(x)]: nearest integer, ties towards [+Infinity]. *)
Definition Math_round (x : num) : num :=
  match x with
  | Fin q => int (Qfloor (q + half)%Qc)
  | _ => x
  end.

(** [Math.abs(x)] *)
Definition Math_abs (x : num) : num :=
  match x with
  | Fin q => match (q ?= 0)%Qc with Lt => Fin (- q)%Qc | _ => x end
  | NInf => PInf
  | _ => x
  end.

(** The number that the string [x.toFixed(d)] reads back as: the exact
    value of [x] rounded to [d] decimals, ties away from zero, and then
    the double nearest to that decimal; [NaN] and the infinities print as
    themselves. *)
Definition toFixed (d : nat) (x : num) : num :=
  match x with
  | Fin q =>
      let p := Qc_of_Z (10 ^ Z.of_nat d) in
      let r := Qc_of_Z (Qfloor ((match (q ?= 0)%Qc with Lt => - q | _ => q end) * p + half)%Qc) in
      Fin (round64 (match (q ?= 0)%Qc with Lt => - (r / p) | _ => r / p end)%Qc)
  | _ => x
  end.

(** [x >= y]; false as soon as one side is [NaN]. *)
Definition ge (x y : num) : bool :=
  match x, y with
  | NaN, _ | _, NaN => false
  | Fin a, Fin b => match (a ?= b)%Qc with Lt => false | _ => true end
  | PInf, _ => true
  | _, NInf => true
  | _, _ => false
  end.

(** [x < y] *)
Definition lt (x y : num) : bool := gt y x.

(** [isNaN(x)] *)
Definition isNaN (x : num) : bool :=
  match x with NaN => true | _ => false end.

(* ===================================================================== *)
(** ** Zones and metric formulas *)
(* ===================================================================== *)

Inductive layerType : Type := polygon | rectangle.

(** The object literal built in [onDrawCreated].  [layer] is a reference
    to the Leaflet layer; [id] is the [n] of the string [zone_<n>]. *)
Record zoneData : Type := mkZone {
  id : nat;
  layer : nat;
  type : layerType;
  area : num;
  panelCount : num;
  panelWattage : num;
  efficiency : num
}.

(** [this.sunlightData], as stored by [fetchSunlightData] or
    [getFallbackSunlightData]. *)
Record sunlight : Type := mkSunlight {
  daily : num;
  weekly : num;
  monthly : num;
  yearly : num
}.

(** [(zoneData.panelCount * zoneData.panelWattage) / 1000] *)
Definition systemSizeOf (z : zoneData) : num :=
  div (mul (panelCount z) (panelWattage z)) (int 1000).

(** [calculatePanelCount(area)] *)
Definition calculatePanelCount (a : num) : num := int 25.

(** [calculateMaxRecommendedPanels(area)] *)
Definition calculateMaxRecommendedPanels (a : num) : num :=
  let panelArea := int 2 in
  let spacingFactor := Fin (dec 7 10) in
  Math_floor (div (mul a spacingFactor) panelArea).

(** [calculateEnergyOutput(zoneData)], reading [this.sunlightData]. *)
Definition calculateEnergyOutput (sd : option sunlight) (z : zoneData) : num :=
  let systemSize := div (mul (panelCount z) (panelWattage z)) (int 1000) in
  let peakSunHours :=
    match sd with
    | Some d => if truthy (daily d) then daily d else Fin (dec 42 10)
    | None => Fin (dec 42 10)
    end in
  let performanceRatio := or_else (efficiency z) (Fin (dec 85 100)) in
  mul (mul (mul systemSize peakSunHours) (int 365)) performanceRatio.

(** [calculateEfficiencyScore(annualOutput, systemSize)] *)
Definition calculateEfficiencyScore (annualOutput systemSize : num) : num :=
  let outputPerKW := div annualOutput systemSize in
  let efficiencyScore := Math_min (mul (div outputPerKW (int 1200)) (int 100)) (int 100) in
  Math_round efficiencyScore.

(** [calculateMonthlyOutput(annualOutput)] *)
Definition calculateMonthlyOutput (annualOutput : num) : num :=
  div annualOutput (int 12).

(* ===================================================================== *)
(** ** Leaflet layers, snapshots and the application state *)
(* ===================================================================== *)

Record LatLng : Type := mkLatLng { lat : Qc; lng : Qc }.

(** What [instanceof] can tell about a layer.  [L.Rectangle] extends
    [L.Polygon]; the draw control only creates these two. *)
Inductive layerClass : Type := LPolygon | LRectangle | LOther.

(** A Leaflet layer: its class, the rings returned by [getLatLngs()], and
    the [zoneId] property that [onDrawCreated] attaches to it. *)
Record layerObj : Type := mkLayer {
  cls : layerClass;
  latLngs : list (list LatLng);
  zoneId : option nat
}.

(** The GeoJSON feature returned by [layer.toGeoJSON()]: the rings of
    [lng, lat] positions of its geometry. *)
Record GeoJSON : Type := mkGeoJSON { coordinates : list (list (Qc * Qc)) }.

(** [new L.EditToolbar.Edit(map, { featureGroup: L.featureGroup(ls) })] *)
Record editHandler : Type := mkHandler { featureGroup : list nat }.

(** The fields of the [SolarVisionAI] instance that the zone core uses.
    [layerObjs] and [zoneObjs] are the object stores: a reference always
    denotes an object, so the stores are total maps from references. *)
Record app : Type := mkApp {
  layerObjs : nat -> layerObj;
  zoneObjs : nat -> zoneData;
  drawingZones : list nat;
  drawnItems : gset nat;
  zoneCounter : nat;
  selectedZone : option nat;
  sunlightData : option sunlight;
  originalGeometry : option GeoJSON;
  currentEditingZone : option nat;
  currentEditHandler : option editHandler
}.

Definition set_layerObjs (f : nat -> layerObj) (s : app) : app :=
  mkApp f (zoneObjs s) (drawingZones s) (drawnItems s) (zoneCounter s)
        (selectedZone s) (sunlightData s) (originalGeometry s)
        (currentEditingZone s) (currentEditHandler s).

Definition set_zoneObjs (f : nat -> zoneData) (s : app) : app :=
  mkApp (layerObjs s) f (drawingZones s) (drawnItems s) (zoneCounter s)
        (selectedZone s) (sunlightData s) (originalGeometry s)
        (currentEditingZone s) (currentEditHandler s).

Definition set_drawingZones (l : list nat) (s : app) : app :=
  mkApp (layerObjs s) (zoneObjs s) l (drawnItems s) (zoneCounter s)
        (selectedZone s) (sunlightData s) (originalGeometry s)
        (currentEditingZone s) (currentEditHandler s).

Definition set_drawnItems (d : gset nat) (s : app) : app :=
  mkApp (layerObjs s) (zoneObjs s) (drawingZones s) d (zoneCounter s)
        (selectedZone s) (sunlightData s) (originalGeometry s)
        (currentEditingZone s) (currentEditHandler s).

Definition set_zoneCounter (n : nat) (s : app) : app :=
  mkApp (layerObjs s) (zoneObjs s) (drawingZones s) (drawnItems s) n
        (selectedZone s) (sunlightData s) (originalGeometry s)
        (currentEditingZone s) (currentEditHandler s).

Definition set_selectedZone (z : option nat) (s : app) : app :=
  mkApp (layerObjs s) (zoneObjs s) (drawingZones s) (drawnItems s)
        (zoneCounter s) z (sunlightData s) (originalGeometry s)
        (currentEditingZone s) (currentEditHandler s).

Definition set_sunlightData (d : option sunlight) (s : app) : app :=
  mkApp (layerObjs s) (zoneObjs s) (drawingZones s) (drawnItems s)
        (zoneCounter s) (selectedZone s) d (originalGeometry s)
        (currentEditingZone s) (currentEditHandler s).

Definition set_originalGeometry (g : option GeoJSON) (s : app) : app :=
  mkApp (layerObjs s) (zoneObjs s) (drawingZones s) (drawnItems s)
        (zoneCounter s) (selectedZone s) (sunlightData s) g
        (currentEditingZone s) (currentEditHandler s).

Definition set_currentEditingZone (z : option nat) (s : app) : app :=
  mkApp (layerObjs s) (zoneObjs s) (drawingZones s) (drawnItems s)
        (zoneCounter s) (selectedZone s) (sunlightData s)
        (originalGeometry s) z (currentEditHandler s).

Definition set_currentEditHandler (h : option editHandler) (s : app) : app :=
  mkApp (layerObjs s) (zoneObjs s) (drawingZones s) (drawnItems s)
        (zoneCounter s) (selectedZone s) (sunlightData s)
        (originalGeometry s) (currentEditingZone s) h.

(** Field assignments on a zone object. *)
Definition with_area (a : num) (z : zoneData) : zoneData :=
  mkZone (id z) (layer z) (type z) a (panelCount z) (panelWattage z) (efficiency z).

Definition with_panelCount (n : num) (z : zoneData) : zoneData :=
  mkZone (id z) (layer z) (type z) (area z) n (panelWattage z) (efficiency z).

(** Field assignments on a layer object. *)
Definition with_latLngs (g : list (list LatLng)) (l : layerObj) : layerObj :=
  mkLayer (cls l) g (zoneId l).

Definition with_zoneId (n : nat) (l : layerObj) : layerObj :=
  mkLayer (cls l) (latLngs l) (Some n).

(** [layer.setLatLngs(g)]: also what dragging a vertex in edit mode does
    to the layer. *)
Definition setLatLngs (l : nat) (g : list (list LatLng)) (s : app) : app :=
  set_layerObjs (<[l := with_latLngs g (layerObjs s l)]> (layerObjs s)) s.

(** The constructor's state, given the object stores. *)
Definition init (ls : nat -> layerObj) (zs : nat -> zoneData) : app :=
  mkApp ls zs [] ∅ 0 None None None None None.

(** The object built by [updateZoneAnalysis] for [showZoneAnalysis]. *)
Module Totals.
Record t : Type := mk {
  zones : num;
  totalArea : num;
  totalPanels : num;
  totalPower : num;
  totalAnnualOutput : num;
  overallEfficiency : num
}.
End Totals.

(** The numbers shown by the analysis panel (elements [zonesCount],
    [totalPanels], [totalPower], [totalOutput], [totalSavings],
    [totalArea]) and whether the optimize button is displayed. *)
Module Panel.
Record t : Type := mk {
  zonesCount : num;
  totalPanels : num;
  totalPower : num;
  totalOutput : num;
  totalSavings : num;
  totalArea : num;
  optimizeBtn : bool
}.
End Panel.

(** The numbers shown for the selected zone by [updateSelectedZoneStats]
    (elements [selectedZoneArea], [selectedZonePower],
    [selectedZoneOutput], [selectedZoneSavings]). *)
Module ZoneStats.
Record t : Type := mk {
  selectedZoneArea : num;
  selectedZonePower : num;
  selectedZoneOutput : num;
  selectedZoneSavings : num
}.
End ZoneStats.

(** The label written next to the panel-count slider: the count, the
    recommended maximum when the warning is shown, and the colour. *)
Inductive colour : Type := amber | indigo.

Module SliderLabel.
Record t : Type := mk {
  panels : num;
  recommendedMax : option num;
  color : colour
}.
End SliderLabel.

(** [this.roofData] *)
Module RoofData.
Record t : Type := mk {
  area : num;
  angle : num;
  sunHours : num;
  confidence : num
}.
End RoofData.

(** [this.optimizationResults]; [co2Reduction] is set by
    [generateOptimizationResults], [zones] is the field that
    [optimizeAllZones] would set. *)
Module OptimizationResults.
Record t : Type := mk {
  panelCount : num;
  systemSize : num;
  annualProduction : num;
  monthlySavings : num;
  systemCost : num;
  paybackPeriod : num;
  co2Reduction : option num;
  zones : option num
}.
End OptimizationResults.





(* ===================================================================== *)
(** ** Sunshine series *)
(* ===================================================================== *)

(** The [map] callback of [fetchSunlightData]; [None] is [null] or
    [undefined]. *)
Definition processHour (seconds : option num) : option num :=
  match seconds with
  | None => None
  | Some v => if gt v (int 24) then Some (div v (int 3600)) else Some v
  end.

Definition processedHours (sunlightHours : list (option num)) : list (option num) :=
  map processHour sunlightHours.

(** [sunlightHours.filter(h => h !== null && h !== undefined)] *)
Definition validHours (sunlightHours : list (option num)) : list num :=
  omap (fun h => h) sunlightHours.

(** [calculateDailyAverage(sunlightHours)] *)
Definition calculateDailyAverage (sunlightHours : list (option num)) : num :=
  let valid := validHours sunlightHours in
  let average :=
    div (foldl (fun sum hours => add sum hours) (int 0) valid)
        (int (Z.of_nat (length valid))) in
  div (Math_round (mul average (int 10))) (int 10).

(** [calculateWeeklyTotal], [calculateMonthlyAverage],
    [calculateYearlyEstimate] *)
Definition calculateWeeklyTotal (sunlightHours : list (option num)) : num :=
  let dailyAvg := calculateDailyAverage sunlightHours in
  div (Math_round (mul (mul dailyAvg (int 7)) (int 10))) (int 10).

Definition calculateMonthlyAverage (sunlightHours : list (option num)) : num :=
  let dailyAvg := calculateDailyAverage sunlightHours in
  div (Math_round (mul (mul dailyAvg (int 30)) (int 10))) (int 10).

Definition calculateYearlyEstimate (sunlightHours : list (option num)) : num :=
  let dailyAvg := calculateDailyAverage sunlightHours in
  Math_round (mul dailyAvg (int 365)).

(** The [sunlightData] that [fetchSunlightData] stores for a fetched
    [data.daily.sunshine_duration] series. *)
Definition fetchedSunlightData (sunshine_duration : list (option num)) : sunlight :=
  let processed := processedHours sunshine_duration in
  mkSunlight (calculateDailyAverage processed)
             (calculateWeeklyTotal processed)
             (calculateMonthlyAverage processed)
             (calculateYearlyEstimate processed).

(** [getFallbackSunlightData(lat)] *)
Definition getFallbackSunlightData (latitude : num) : sunlight :=
  let dailyAverage :=
    if gt (Fin (dec 235 10)) (Math_abs latitude) then Fin (dec 65 10)
    else if gt (int 40) (Math_abs latitude) then Fin (dec 58 10)
    else if gt (int 60) (Math_abs latitude) then Fin (dec 45 10)
    else Fin (dec 32 10) in
  mkSunlight dailyAverage
             (div (Math_round (mul (mul dailyAverage (int 7)) (int 10))) (int 10))
             (div (Math_round (mul (mul dailyAverage (int 30)) (int 10))) (int 10))
             (Math_round (mul dailyAverage (int 365))).

(* ===================================================================== *)
(** ** Solar metrics and period figures *)
(* ===================================================================== *)

(** The five ratings of [calculateSolarMetrics]
    (['Poor'], ['Fair'], ['Good'], ['Very Good'], ['Excellent']). *)
Inductive potential : Type := Poor | Fair | Good | VeryGood | Excellent.

(** The two values of [peakSeason] (['Summer'], ['Spring/Fall']). *)
Inductive season : Type := Summer | SpringFall.

(** The object returned by [calculateSolarMetrics]; the colour goes with
    the rating and the orientation is the constant ['South-facing']. *)
Module SolarMetrics.
Record t : Type := mk {
  solarPotential : potential;
  optimalTilt : num;
  winterHours : num;
  summerHours : num;
  annualProductionPerKW : num;
  peakSeason : season
}.
End SolarMetrics.

(** The rating chain of [calculateSolarMetrics]. *)
Definition solarPotentialOf (dailyHours : num) : potential :=
  if ge dailyHours (Fin (dec 55 10)) then Excellent
  else if ge dailyHours (Fin (dec 45 10)) then VeryGood
  else if ge dailyHours (Fin (dec 35 10)) then Good
  else if ge dailyHours (Fin (dec 25 10)) then Fair
  else Poor.




(* ===================================================================== *)
(** ** Address search: choice of the result *)
(* ===================================================================== *)

(** [item.address] of a search result, as far as the choice reads it. *)
Record addressObj : Type := mkAddress { house_number : option string }.

(** An entry of the result list: [parseFloat] of its [lat] and [lon], its
    [type] and its [address] ([None] when the entry has none). *)
Module SearchItem.
Record t : Type := mk {
  lat : num;
  lon : num;
  type : string;
  address : option addressObj
}.
End SearchItem.

(** [item.address && item.address.house_number]: a non-empty string. *)
Definition hasHouseNumber (item : SearchItem.t) : bool :=
  match SearchItem.address item with
  | Some a =>
      match house_number a with
      | Some n => negb (String.eqb n EmptyString)
      | None => false
      end
  | None => false
  end.

(** [item.type === 'city' || item.type === 'town' || item.type === 'village'] *)
Definition isSettlement (item : SearchItem.t) : bool :=
  String.eqb (SearchItem.type item) "city"
  || String.eqb (SearchItem.type item) "town"
  || String.eqb (SearchItem.type item) "village".

(** The choice of [location] in [searchAddress]; [None] is [null]. *)
Definition selectLocation (searchResults : list SearchItem.t) : option SearchItem.t :=
  match searchResults with
  | [] => None
  | first :: _ =>
      match find hasHouseNumber searchResults with
      | Some item => Some item
      | None =>
          match find isSettlement searchResults with
          | Some item => Some item
          | None => Some first
          end
      end
  end.

(** The coordinate check of [searchAddress]; [true] is the case that
    throws ['Invalid coordinates received']. *)
Definition invalidCoordinates (latitude longitude : num) : bool :=
  isNaN latitude || isNaN longitude
  || lt latitude (int (-90)) || gt latitude (int 90)
  || lt longitude (int (-180)) || gt longitude (int 180).

(** The zoom level that [searchAddress] picks from the type of the chosen
    result. *)
Definition zoomLevelOf (type : string) : Z :=
  if String.eqb type "city" || String.eqb type "town" then 14
  else if String.eqb type "village" || String.eqb type "hamlet" then 16
  else if String.eqb type "suburb" || String.eqb type "neighbourhood" then 17
  else 19.

(** What [searchAddress] does with the result list: it centres the map,
    throws on invalid coordinates, or reports that nothing was found. *)
Inductive searchOutcome : Type :=
  | SetView (latitude longitude : num) (zoomLevel : Z) (location : SearchItem.t)
  | InvalidCoordinates
  | NotFound.

Definition locate (searchResults : list SearchItem.t) : searchOutcome :=
  match selectLocation searchResults with
  | Some location =>
      let latitude := SearchItem.lat location in
      let longitude := SearchItem.lon location in
      if invalidCoordinates latitude longitude then InvalidCoordinates
      else SetView latitude longitude (zoomLevelOf (SearchItem.type location)) location
  | None => NotFound
  end.

(* ===================================================================== *)
(** ** Reference collaborators *)
(* ===================================================================== *)

(** Concrete stand-ins for the collaborators that script.js does not
    define, used to run the model on concrete inputs. *)

(** Twice the signed shoelace area of the closed ring [first :: ...]. *)
Fixpoint shoelace (first : LatLng) (ring : list LatLng) : Qc :=
  match ring with
  | [] => 0
  | p :: rest =>
      match rest with
      | [] => lng p * lat first - lng first * lat p
      | q :: _ => (lng p * lat q - lng q * lat p) + shoelace first rest
      end
  end.

(** A planar area function in the role of
    [L.GeometryUtil.geodesicArea]. *)
Definition planarArea (ring : option (list LatLng)) : num :=
  match ring with
  | Some (p :: rest) => Math_abs (Fin (shoelace p (p :: rest) / 2))
  | _ => int 0
  end.

(** A lossless snapshot in the role of [layer.toGeoJSON()], and the way
    back in the role of [L.geoJSON(g).getLayers()[0].getLatLngs()]. *)
Definition exactGeoJSON (lay : layerObj) : GeoJSON :=
  mkGeoJSON (map (map (fun p => (lng p, lat p))) (latLngs lay)).

Definition exactLatLngs (g : GeoJSON) : list (list LatLng) :=
  map (map (fun c => mkLatLng (snd c) (fst c))) (coordinates g).





(** The rectangle with corners [(0,0)] and [(w,h)]. *)
Definition rect (w h : Z) : list (list LatLng) :=
  [[mkLatLng 0 0; mkLatLng 0 (Qc_of_Z w); mkLatLng (Qc_of_Z h) (Qc_of_Z w);
    mkLatLng (Qc_of_Z h) 0]].

(** A strip 10 wide whose height, 0.1234567, has seven decimals. *)
Definition strip : list (list LatLng) :=
  [[mkLatLng 0 0; mkLatLng 0 (Qc_of_Z 10);
    mkLatLng (dec 1234567 10000000) (Qc_of_Z 10);
    mkLatLng (dec 1234567 10000000) 0]].

(** A layer store: layer [1] is 10 x 10, layer [2] is 20 x 10, layer [3]
    is 14 x 10, layer [4] is the strip, every other reference denotes an
    empty polygon. *)
Definition exampleLayers (l : nat) : layerObj :=
  match l with
  | 1%nat => mkLayer LPolygon (rect 10 10) None
  | 2%nat => mkLayer LRectangle (rect 20 10) None
  | 3%nat => mkLayer LPolygon (rect 14 10) None
  | 4%nat => mkLayer LPolygon strip None
  | _ => mkLayer LPolygon [[]] None
  end.

Definition exampleZones (r : nat) : zoneData :=
  mkZone 0 0 polygon (int 0) (int 0) (int 0) (int 0).

(* ===================================================================== *)
(** ** The zone store *)
(* ===================================================================== *)

Section Core.

(** Collaborators that script.js calls but does not define. *)

(** [L.GeometryUtil.geodesicArea(latLngs)]; the argument is
    [layer.getLatLngs()[0]], [None] when there is no ring 0. *)
Variable geodesicArea : option (list LatLng) -> num.

(** [layer.toGeoJSON()] *)
Variable toGeoJSON : layerObj -> GeoJSON.

(** [L.geoJSON(g).getLayers()[0].getLatLngs()] *)
Variable geoJSONLatLngs : GeoJSON -> list (list LatLng).

(** [calculateArea(layer)] *)
Definition calculateArea (lay : layerObj) : num :=
  match cls lay with
  | LPolygon | LRectangle => geodesicArea (head (latLngs lay))
  | LOther => int 0
  end.

(** [zone.id === zoneId] and [zone.layer === layer] on a zone reference. *)
Definition hasId (s : app) (zid : nat) (r : nat) : Prop := id (zoneObjs s r) = zid.
Definition hasLayer (s : app) (l : nat) (r : nat) : Prop := layer (zoneObjs s r) = l.

#[local] Instance hasId_dec s zid r : Decision (hasId s zid r).
Proof. unfold hasId. apply _. Defined.
#[local] Instance hasLayer_dec s l r : Decision (hasLayer s l r).
Proof. unfold hasLayer. apply _. Defined.

(** [selectZone(zoneData)]; [None] is [null].  The restyling of the
    layers and the DOM updates are presentation. *)
Definition selectZone (zoneData : option nat) (s : app) : app :=
  set_selectedZone zoneData s.

(** [onDrawCreated(e)], synchronous part: [l] is [e.layer], [ty] is
    [e.layerType].  The new zone object gets the reference
    [zoneCounter + 1], the number in its id. *)
Definition onDrawCreated (l : nat) (ty : layerType) (s : app) : app :=
  let n := S (zoneCounter s) in
  let lay := with_zoneId n (layerObjs s l) in
  let a := calculateArea lay in
  let count := int 25 in
  let zoneData := mkZone n l ty a count (int 400) (Fin (dec 85 100)) in
  mkApp (<[l := lay]> (layerObjs s))
        (<[n := zoneData]> (zoneObjs s))
        (drawingZones s ++ [n])
        ({[l]} ∪ drawnItems s)
        n
        (selectedZone s) (sunlightData s) (originalGeometry s)
        (currentEditingZone s) (currentEditHandler s).

(** The callback that [onDrawCreated] schedules 500 ms later for the zone
    it created: [this.selectedZone = zoneData].  It does not look at the
    store, and it runs whatever has happened in the meantime. *)
Definition onDrawCreated_autoSelect (zoneData : nat) (s : app) : app :=
  set_selectedZone (Some zoneData) s.

(** Body of the [eachLayer] callback of [onDrawEdited]. *)
Definition onDrawEdited_layer (s : app) (l : nat) : app :=
  match list_find (hasLayer s l) (drawingZones s) with
  | Some (_, r) =>
      let z := with_area (calculateArea (layerObjs s l)) (zoneObjs s r) in
      let z := with_panelCount (calculatePanelCount (area z)) z in
      set_zoneObjs (<[r := z]> (zoneObjs s)) s
  | None => s
  end.

(** [onDrawEdited(e)]; [ls] are the layers of [e.layers]. *)
Definition onDrawEdited (ls : list nat) (s : app) : app :=
  foldl onDrawEdited_layer s ls.

(** Body of the [eachLayer] callback of [onDrawDeleted]. *)
Definition onDrawDeleted_layer (s : app) (l : nat) : app :=
  set_drawingZones (filter (fun r => ¬ hasLayer s l r) (drawingZones s)) s.

(** [onDrawDeleted(e)]; [ls] are the layers of [e.layers]. *)
Definition onDrawDeleted (ls : list nat) (s : app) : app :=
  foldl onDrawDeleted_layer s ls.

(** [deleteZone(zoneId)] *)
Definition deleteZone (zid : nat) (s : app) : app :=
  match list_find (hasId s zid) (drawingZones s) with
  | Some (zoneIndex, r) =>
      let s := set_drawnItems (drawnItems s ∖ {[layer (zoneObjs s r)]}) s in
      let s := set_drawingZones (delete zoneIndex (drawingZones s)) s in
      let s :=
        match selectedZone s with
        | Some sel => if decide (hasId s zid sel) then set_selectedZone None s else s
        | None => s
        end in
      match drawingZones s, selectedZone s with
      | first :: _, None => selectZone (Some first) s
      | _, _ => s
      end
  | None => s
  end.

(** [hideEditActions()] *)
Definition hideEditActions (s : app) : app :=
  set_originalGeometry None (set_currentEditingZone None s).

(** [editZone(zoneId)] *)
Definition editZone (zid : nat) (s : app) : app :=
  match list_find (hasId s zid) (drawingZones s) with
  | Some (_, r) =>
      let l := layer (zoneObjs s r) in
      let s := set_originalGeometry (Some (toGeoJSON (layerObjs s l))) s in
      let s := set_currentEditingZone (Some r) s in
      set_currentEditHandler (Some (mkHandler [l])) s
  | None => s
  end.

(** [saveZoneEdit()].  [edited] are the layers of the [draw:edited] event
    that [currentEditHandler.save()] fires, so [onDrawEdited] runs on them
    before the area is recomputed. *)
Definition saveZoneEdit (edited : list nat) (s : app) : app :=
  match currentEditHandler s with
  | Some _ =>
      let s := onDrawEdited edited s in
      let s := set_currentEditHandler None s in
      let s :=
        match currentEditingZone s with
        | Some r =>
            let z := zoneObjs s r in
            set_zoneObjs (<[r := with_area (calculateArea (layerObjs s (layer z))) z]> (zoneObjs s)) s
        | None => s
        end in
      hideEditActions s
  | None => s
  end.

(** [cancelZoneEdit()] *)
Definition cancelZoneEdit (s : app) : app :=
  match currentEditHandler s, currentEditingZone s, originalGeometry s with
  | Some _, Some r, Some g =>
      let s := set_currentEditHandler None s in
      let l := layer (zoneObjs s r) in
      let s := setLatLngs l (geoJSONLatLngs g) s in
      let z := zoneObjs s r in
      let s := set_zoneObjs (<[r := with_area (calculateArea (layerObjs s l)) z]> (zoneObjs s)) s in
      let s := set_drawnItems ({[l]} ∪ (drawnItems s ∖ {[l]})) s in
      hideEditActions s
  | _, _, _ => s
  end.

(** [updateSelectedZoneStats()]: [None] when nothing is selected and the
    elements are left alone. *)
Definition updateSelectedZoneStats (s : app) : option ZoneStats.t :=
  match selectedZone s with
  | None => None
  | Some r =>
      let z := zoneObjs s r in
      let energyOutput := calculateEnergyOutput (sunlightData s) z in
      let systemSize := div (mul (panelCount z) (panelWattage z)) (int 1000) in
      let efficiencyScore := calculateEfficiencyScore energyOutput systemSize in
      Some (ZoneStats.mk (toFixed 1 (area z)) (toFixed 1 systemSize)
                         (toFixed 0 energyOutput) efficiencyScore)
  end.

(** One round of the [forEach] of [updateZoneAnalysis]; the accumulator is
    [(totalArea, totalPanels, totalPower, totalAnnualOutput)]. *)
Definition accumulateZone (s : app) (acc : num * num * num * num) (r : nat)
    : num * num * num * num :=
  let '(totalArea, totalPanels, totalPower, totalAnnualOutput) := acc in
  let zone := zoneObjs s r in
  let totalArea := add totalArea (area zone) in
  let totalPanels := add totalPanels (panelCount zone) in
  let totalPower := add totalPower (div (mul (panelCount zone) (panelWattage zone)) (int 1000)) in
  let energyOutput := calculateEnergyOutput (sunlightData s) zone in
  let totalAnnualOutput := add totalAnnualOutput energyOutput in
  (totalArea, totalPanels, totalPower, totalAnnualOutput).

(** The totals that [updateZoneAnalysis] computes once it has found the
    zone list non-empty. *)
Definition computeTotals (s : app) : Totals.t :=
  let '(totalArea, totalPanels, totalPower, totalAnnualOutput) :=
    foldl (accumulateZone s) (int 0, int 0, int 0, int 0) (drawingZones s) in
  let overallEfficiency :=
    if gt totalPower (int 0)
    then calculateEfficiencyScore totalAnnualOutput totalPower
    else int 0 in
  Totals.mk (int (Z.of_nat (length (drawingZones s))))
            totalArea totalPanels totalPower totalAnnualOutput overallEfficiency.

(** [showZoneAnalysis(totals)] *)
Definition showZoneAnalysis (totals : Totals.t) : Panel.t :=
  Panel.mk (Totals.zones totals)
           (Totals.totalPanels totals)
           (toFixed 1 (Totals.totalPower totals))
           (toFixed 0 (Totals.totalAnnualOutput totals))
           (Totals.overallEfficiency totals)
           (toFixed 1 (Totals.totalArea totals))
           (gt (Totals.zones totals) (int 0)).

(** [hideZoneAnalysis()]: every element is reset to 0. *)
Definition hideZoneAnalysis : Panel.t :=
  Panel.mk (int 0) (int 0) (int 0) (int 0) (int 0) (int 0) false.

(** [updateZoneAnalysis()]: what the analysis panel shows afterwards. *)
Definition updateZoneAnalysis (s : app) : Panel.t :=
  match drawingZones s with
  | [] => hideZoneAnalysis
  | _ :: _ => showZoneAnalysis (computeTotals s)
  end.

(** The [input] listener of the [zonePanelCount] slider; [panelCount] is
    [parseInt(e.target.value)].  It returns the new state together with the
    label it writes, and [None] when no zone is selected and nothing
    happens. *)
Definition zonePanelCount_input (panelCount : num) (s : app) : app * option SliderLabel.t :=
  match selectedZone s with
  | Some r =>
      let maxRecommended := calculateMaxRecommendedPanels (area (zoneObjs s r)) in
      let label :=
        if gt panelCount maxRecommended
        then SliderLabel.mk panelCount (Some maxRecommended) amber
        else SliderLabel.mk panelCount None indigo in
      (set_zoneObjs (<[r := with_panelCount panelCount (zoneObjs s r)]> (zoneObjs s)) s,
       Some label)
  | None => (s, None)
  end.


(** *** Example states *)

(** The state right after construction, over the example stores. *)
Definition exampleInit : app := init exampleLayers exampleZones.

(** One zone drawn on layer [1], after its auto-select callback has run;
    it is selected. *)
Definition exampleOneZone : app :=
  onDrawCreated_autoSelect 1 (onDrawCreated 1%nat polygon exampleInit).

(** Two zones, drawn on layers [1] (100 m2) and [2] (200 m2), each
    followed by its callback; the second one is selected. *)
Definition exampleTwoZones : app :=
  onDrawCreated_autoSelect 2 (onDrawCreated 2%nat rectangle exampleOneZone).



(** Two zones of 100 m2 and 200 m2 with 25 panels of 400 W each and a
    performance ratio of 0.85, under [sd] as stored sunlight data. *)
Definition exampleAggregate (sd : option sunlight) : app :=
  mkApp exampleLayers
        (fun r => match r with
                  | 1%nat => mkZone 1 1 polygon (int 100) (int 25) (int 400) (Fin (dec 85 100))
                  | 2%nat => mkZone 2 2 rectangle (int 200) (int 25) (int 400) (Fin (dec 85 100))
                  | _ => exampleZones r
                  end)
        [1%nat; 2%nat] {[1%nat; 2%nat]} 2 (Some 2%nat) sd None None None.

(** A sunlight sample whose daily average is [h]. *)
Definition sampleOf (h : num) : sunlight :=
  mkSunlight h
             (div (Math_round (mul (mul h (int 7)) (int 10))) (int 10))
             (div (Math_round (mul (mul h (int 30)) (int 10))) (int 10))
             (Math_round (mul h (int 365))).

(** *** Vocabulary of the properties *)

(** Sum of [f] over the zones of the store, in list order. *)
Definition sumOver (f : zoneData -> num) (s : app) : num :=
  foldl (fun acc r => add acc (f (zoneObjs s r))) (int 0) (drawingZones s).

(** No two zones of the store have the same id, or the same layer. *)
Definition uniqueIds (s : app) : Prop :=
  forall r r', r ∈ drawingZones s -> r' ∈ drawingZones s ->
    id (zoneObjs s r) = id (zoneObjs s r') -> r = r'.

Definition uniqueLayers (s : app) : Prop :=
  forall r r', r ∈ drawingZones s -> r' ∈ drawingZones s ->
    layer (zoneObjs s r) = layer (zoneObjs s r') -> r = r'.

(** The selection, when there is one, is a zone of the store. *)
Definition selectionInStore (s : app) : Prop :=
  forall r, selectedZone s = Some r -> r ∈ drawingZones s.

(** The stored area of every zone of the store is the area of its layer's
    current geometry. *)
Definition areaInSync (s : app) : Prop :=
  forall r, r ∈ drawingZones s ->
    area (zoneObjs s r) = calculateArea (layerObjs s (layer (zoneObjs s r))).

(** The page: the application object together with the auto-select
    callbacks that [onDrawCreated] has scheduled and that have not run
    yet, oldest first (timers of equal delay run in the order in which
    they were set). *)
Record page : Type := mkPage {
  appOf : app;
  pendingAutoSelect : list nat
}.

(** What happens to the store, one event at a time: a [draw:created]
    event, the oldest pending auto-select callback, or a click on the
    delete button of a zone ([deleteZone]). *)
Inductive storeOp : Type :=
  | OpCreate (l : nat) (ty : layerType)
  | OpTimer
  | OpDelete (zid : nat).

Definition applyOp (p : page) (o : storeOp) : page :=
  match o with
  | OpCreate l ty =>
      mkPage (onDrawCreated l ty (appOf p))
             (pendingAutoSelect p ++ [S (zoneCounter (appOf p))])
  | OpTimer =>
      match pendingAutoSelect p with
      | zoneData :: rest => mkPage (onDrawCreated_autoSelect zoneData (appOf p)) rest
      | [] => p
      end
  | OpDelete zid => mkPage (deleteZone zid (appOf p)) (pendingAutoSelect p)
  end.

Definition runOps (ops : list storeOp) (p : page) : page := foldl applyOp p ops.

(** The page right after construction: no callback is pending. *)
Definition load (ls : nat -> layerObj) (zs : nat -> zoneData) : page :=
  mkPage (init ls zs) [].

(** No zone is deleted while an auto-select callback is pending; [pending]
    is the number of callbacks pending before the sequence. *)
Fixpoint quiet (ops : list storeOp) (pending : nat) : bool :=
  match ops with
  | [] => true
  | OpCreate _ _ :: rest => quiet rest (S pending)
  | OpTimer :: rest => quiet rest (pred pending)
  | OpDelete _ :: rest => Nat.eqb pending 0 && quiet rest pending
  end.

(** Two zones are drawn, both are deleted with [deleteZone] before either
    callback has run, then the callbacks run. *)
Definition deletedBeforeTimers : list storeOp :=
  [OpCreate 1 polygon; OpCreate 2 rectangle; OpDelete 1; OpDelete 2; OpTimer; OpTimer].

(** Zone objects are referenced by the number of their id, and no
    reference of the store is beyond the counter. *)
Definition idsFromCounter (s : app) : Prop :=
  forall r, r ∈ drawingZones s -> (r <= zoneCounter s)%nat /\ id (zoneObjs s r) = r.

(** What holds of the store after any sequence of creations, callbacks
    and deletions. *)
Definition storeInv (s : app) : Prop :=
  idsFromCounter s /\ areaInSync s.

(** The selection and every zone that a pending callback will select are
    zones of the store. *)
Definition selectionInv (p : page) : Prop :=
  selectionInStore (appOf p) /\
  forall r, r ∈ pendingAutoSelect p -> r ∈ drawingZones (appOf p).

(** The fields of a zone that no edit touches. *)
Definition sameIdentity (z z' : zoneData) : Prop :=
  id z' = id z /\ layer z' = layer z /\ type z' = type z /\
  panelWattage z' = panelWattage z /\ efficiency z' = efficiency z.




(** A finite number of hours within a day. *)
Definition withinDay (v : num) : Prop :=
  exists q : Qc, v = Fin q /\ (0 <= q)%Qc /\ (q <= Qc_of_Z 24)%Qc.

(** The ratings of [calculateSolarMetrics] in ascending order. *)
Definition rank (p : potential) : nat :=
  match p with
  | Poor => 0
  | Fair => 1
  | Good => 2
  | VeryGood => 3
  | Excellent => 4
  end.

(** The whole number that [calculateEfficiencyScore] returns for a finite
    output [o] and a finite non-zero size [s]: every operation of
    [Math.min((o / s / 1200) * 100, 100)] rounds to a double before
    [Math.round]. *)
Definition scoreOf (o s : Qc) : Z :=
  Z.min 100
    (Qfloor (round64 (round64 (round64 (o / s) / Qc_of_Z 1200) * Qc_of_Z 100) + half)%Qc).

(** The reading that C10 gives of a fetched value: above 24 it is a
    number of seconds, otherwise a number of hours. *)
Definition hoursOfValue (v : num) : num :=
  if gt v (int 24) then div v (int 3600) else v.

(** The mean of a list of hours, rounded to one decimal. *)
Definition meanToTenths (hours : list num) : num :=
  div (Math_round
         (mul (div (foldl add (int 0) hours) (int (Z.of_nat (length hours)))) (int 10)))
      (int 10).

(** Number of creations in a sequence of store operations. *)
Fixpoint countCreates (ops : list storeOp) : nat :=
  match ops with
  | [] => 0
  | OpCreate _ _ :: rest => S (countCreates rest)
  | OpTimer :: rest => countCreates rest
  | OpDelete _ :: rest => countCreates rest
  end.

(** No zone reference occurs twice in the store, and none is 0. *)
Definition distinctZones (s : app) : Prop :=
  NoDup (drawingZones s) /\ forall r, r ∈ drawingZones s -> (1 <= r)%nat.

(** Dragging vertices during an edit: successive geometries of layer [l]. *)
Definition mutateGeometry (l : nat) (gs : list (list (list LatLng))) (s : app) : app :=
  foldl (fun s g => setLatLngs l g s) s gs.

(* ===================================================================== *)
(** ** Facts about numbers *)
(* ===================================================================== *)

(** *** Rounding to the nearest double *)

Section Rounding.

Local Open Scope Q_scope.

Lemma pow2_pos e : 0 < pow2 e.
Proof. apply Qpower_0_lt. reflexivity. Qed.

Lemma pow2_nz e : ~ pow2 e == 0.
Proof. pose proof (pow2_pos e). lra. Qed.

Lemma pow2_add a b : pow2 (a + b) == pow2 a * pow2 b.
Proof. apply Qpower_plus. discriminate. Qed.

Lemma pow2_le a b : (a <= b)%Z -> pow2 a <= pow2 b.
Proof. intros H. apply Qpower_le_compat_l; [exact H | discriminate]. Qed.

Lemma pow2_lt a b : (a < b)%Z -> pow2 a < pow2 b.
Proof. intros H. apply Qpower_lt_compat_l; [exact H | reflexivity]. Qed.

Lemma pow2_lt_inv a b : pow2 a < pow2 b -> (a < b)%Z.
Proof.
  intros H. destruct (Z_lt_le_dec a b) as [Hlt | Hle]; [exact Hlt |].
  pose proof (pow2_le _ _ Hle). lra.
Qed.

Lemma pow2_Z n : (0 <= n)%Z -> pow2 n == inject_Z (2 ^ n).
Proof. intros H. unfold pow2. rewrite (Zpower_Qpower 2 n H). reflexivity. Qed.


Lemma pow2_sub a b : pow2 (a - b) == pow2 a / pow2 b.
Proof.
  assert (H : pow2 a == pow2 (a - b) * pow2 b).
  { rewrite <- pow2_add. replace (a - b + b)%Z with a by lia. reflexivity. }
  rewrite H. field. apply pow2_nz.
Qed.

Lemma ilog2_spec x : 0 < x -> pow2 (ilog2 x) <= x /\ x < pow2 (ilog2 x + 1).
Proof.
  intros Hx. unfold ilog2. cbv zeta.
  destruct x as [n d]. simpl Qnum. simpl Qden.
  assert (Hn : (0 < n)%Z).
  { unfold Qlt in Hx. simpl in Hx. lia. }
  pose proof (Z.log2_spec n Hn) as [Hn1 Hn2].
  pose proof (Z.log2_spec (Zpos d) (Pos2Z.is_pos d)) as [Hd1 Hd2].
  pose proof (Z.log2_nonneg n) as Ha. pose proof (Z.log2_nonneg (Zpos d)) as Hb.
  set (a := Z.log2 n) in *. set (b := Z.log2 (Zpos d)) in *.
  assert (Hx' : n # d == inject_Z n / inject_Z (Zpos d)) by apply Qmake_Qdiv.
  assert (Hdpos : 0 < inject_Z (Zpos d)) by reflexivity.
  assert (Q1 : pow2 a <= inject_Z n).
  { rewrite pow2_Z by lia. rewrite <- Zle_Qle. exact Hn1. }
  assert (Q2 : inject_Z n < pow2 (a + 1)).
  { rewrite pow2_Z by lia. rewrite <- Zlt_Qlt. exact Hn2. }
  assert (Q3 : pow2 b <= inject_Z (Zpos d)).
  { rewrite pow2_Z by lia. rewrite <- Zle_Qle. exact Hd1. }
  assert (Q4 : inject_Z (Zpos d) < pow2 (b + 1)).
  { rewrite pow2_Z by lia. rewrite <- Zlt_Qlt. exact Hd2. }
  assert (Hup : n # d < pow2 (a - b + 1)).
  { rewrite Hx'. apply Qlt_shift_div_r; [exact Hdpos |].
    replace (a - b + 1)%Z with ((a + 1) - b)%Z by lia.
    rewrite pow2_sub.
    pose proof (pow2_pos b). pose proof (pow2_pos (a + 1)).
    apply Qlt_le_trans with (pow2 (a + 1)); [exact Q2 |].
    apply Qle_trans with (pow2 (a + 1) / pow2 b * pow2 b).
    - field_simplify (pow2 (a + 1) / pow2 b * pow2 b); [lra | apply pow2_nz].
    - apply Qmult_le_l; [| exact Q3].
      apply Qlt_shift_div_l; [exact H | lra]. }
  assert (Hlo : pow2 (a - b - 1) < n # d).
  { rewrite Hx'. apply Qlt_shift_div_l; [exact Hdpos |].
    replace (a - b - 1)%Z with (a - (b + 1))%Z by lia.
    rewrite pow2_sub.
    pose proof (pow2_pos (b + 1)). pose proof (pow2_pos a).
    apply Qlt_le_trans with (pow2 a); [| exact Q1].
    apply Qlt_le_trans with (pow2 a / pow2 (b + 1) * pow2 (b + 1)).
    - apply Qmult_lt_l; [| exact Q4].
      apply Qlt_shift_div_l; [exact H | lra].
    - field_simplify (pow2 a / pow2 (b + 1) * pow2 (b + 1)); [lra | apply pow2_nz]. }
  destruct (Qle_bool (pow2 (a - b)) (n # d)) eqn:E.
  - apply Qle_bool_iff in E. split; [exact E | exact Hup].
  - assert (Hlt : n # d < pow2 (a - b)).
    { apply Qnot_le_lt. intros H. apply Qle_bool_iff in H. congruence. }
    split; [apply Qlt_le_weak; exact Hlo |].
    replace (a - b - 1 + 1)%Z with (a - b)%Z by lia. exact Hlt.
Qed.

Lemma ilog2_unique x k : pow2 k <= x -> x < pow2 (k + 1) -> ilog2 x = k.
Proof.
  intros Hl Hu.
  assert (Hx : 0 < x) by (pose proof (pow2_pos k); lra).
  destruct (ilog2_spec x Hx) as [Sl Su].
  assert (H1 : (k < ilog2 x + 1)%Z) by (apply pow2_lt_inv; lra).
  assert (H2 : (ilog2 x < k + 1)%Z) by (apply pow2_lt_inv; lra).
  lia.
Qed.

Lemma ilog2_mono x y : 0 < x -> x <= y -> (ilog2 x <= ilog2 y)%Z.
Proof.
  intros Hx Hxy.
  destruct (ilog2_spec x Hx) as [Sl Su].
  destruct (ilog2_spec y) as [Tl Tu]; [lra |].
  assert (H : (ilog2 x < ilog2 y + 1)%Z) by (apply pow2_lt_inv; lra).
  lia.
Qed.

Lemma ilog2_comp x y : 0 < x -> x == y -> ilog2 x = ilog2 y.
Proof.
  intros Hx E. symmetry. destruct (ilog2_spec x Hx) as [Sl Su].
  apply ilog2_unique; lra.
Qed.

Lemma ilog2_scale x k : 0 < x -> ilog2 (x * pow2 k) = (ilog2 x + k)%Z.
Proof.
  intros Hx. destruct (ilog2_spec x Hx) as [Sl Su].
  pose proof (pow2_pos k) as Hk.
  apply ilog2_unique.
  - rewrite pow2_add. apply Qmult_le_compat_r; lra.
  - replace (ilog2 x + k + 1)%Z with (ilog2 x + 1 + k)%Z by lia.
    rewrite pow2_add. apply Qmult_lt_compat_r; lra.
Qed.

(** Rounding to the nearest integer. *)

Ltac cmp_facts :=
  repeat match goal with
  | H : Qcompare _ _ = Eq |- _ => apply Qeq_alt in H
  | H : Qcompare _ _ = Lt |- _ => apply Qlt_alt in H
  | H : Qcompare _ _ = Gt |- _ => apply Qgt_alt in H
  end.

Lemma rne_comp x y : x == y -> rne x = rne y.
Proof.
  intros E. unfold rne. cbv zeta.
  rewrite (Qfloor_comp _ _ E).
  assert (H : x - inject_Z (Qfloor y) == y - inject_Z (Qfloor y)) by (rewrite E; reflexivity).
  rewrite (Qcompare_comp _ _ H (1#2) (1#2) (Qeq_refl _)). reflexivity.
Qed.

Lemma rne_bounds x : (Qfloor x <= rne x <= Qfloor x + 1)%Z.
Proof.
  unfold rne. cbv zeta.
  destruct (Qcompare _ _); [destruct (Z.even _) | |]; lia.
Qed.

Lemma rne_Z n : rne (inject_Z n) = n.
Proof.
  unfold rne. cbv zeta. rewrite Qfloor_Z.
  destruct (Qcompare (inject_Z n - inject_Z n) (1 # 2)) eqn:C; [| reflexivity |].
  - apply Qeq_alt in C. lra.
  - apply Qgt_alt in C. lra.
Qed.

Lemma rne_mono x y : x <= y -> (rne x <= rne y)%Z.
Proof.
  intros Hxy.
  pose proof (Qfloor_resp_le _ _ Hxy) as Hf.
  pose proof (rne_bounds x) as Bx. pose proof (rne_bounds y) as By.
  destruct (Z.eq_dec (Qfloor x) (Qfloor y)) as [E | NE]; [| lia].
  unfold rne. cbv zeta. rewrite <- E.
  destruct (Qcompare (x - inject_Z (Qfloor x)) (1 # 2)) eqn:Cx;
    destruct (Qcompare (y - inject_Z (Qfloor x)) (1 # 2)) eqn:Cy;
    try (destruct (Z.even (Qfloor x))); try lia; exfalso; cmp_facts; lra.
Qed.



(** Rounding of positive rationals. *)

Lemma scaled_range x : 0 < x ->
  inject_Z (2 ^ 52) <= x / pow2 (ilog2 x - 52) /\ x / pow2 (ilog2 x - 52) < inject_Z (2 ^ 53).
Proof.
  intros Hx. destruct (ilog2_spec x Hx) as [Sl Su].
  pose proof (pow2_pos (ilog2 x - 52)) as He.
  rewrite <- !pow2_Z by lia. split.
  - apply Qle_shift_div_l; [exact He |].
    rewrite <- pow2_add. replace (52 + (ilog2 x - 52))%Z with (ilog2 x) by lia. exact Sl.
  - apply Qlt_shift_div_r; [exact He |].
    rewrite <- pow2_add. replace (53 + (ilog2 x - 52))%Z with (ilog2 x + 1)%Z by lia. exact Su.
Qed.

Lemma mantissa_range x : 0 < x ->
  (2 ^ 52 <= rne (x / pow2 (ilog2 x - 52)) <= 2 ^ 53)%Z.
Proof.
  intros Hx. destruct (scaled_range x Hx) as [Hl Hu]. split.
  - rewrite <- (rne_Z (2 ^ 52)). apply rne_mono. exact Hl.
  - rewrite <- (rne_Z (2 ^ 53)). apply rne_mono. apply Qlt_le_weak. exact Hu.
Qed.

Lemma roundPos_range x : 0 < x ->
  pow2 (ilog2 x) <= roundPos x /\ roundPos x <= pow2 (ilog2 x + 1).
Proof.
  intros Hx. unfold roundPos. cbv zeta.
  destruct (mantissa_range x Hx) as [Ml Mu].
  pose proof (pow2_pos (ilog2 x - 52)) as He.
  set (m := rne (x / pow2 (ilog2 x - 52))) in *.
  rewrite Zle_Qle in Ml, Mu. rewrite <- !pow2_Z in Ml, Mu by lia.
  split.
  - replace (ilog2 x) with (52 + (ilog2 x - 52))%Z at 1 by lia.
    rewrite pow2_add. apply Qmult_le_compat_r; lra.
  - replace (ilog2 x + 1)%Z with (53 + (ilog2 x - 52))%Z by lia.
    rewrite pow2_add. apply Qmult_le_compat_r; lra.
Qed.

Lemma roundPos_pos x : 0 < x -> 0 < roundPos x.
Proof.
  intros Hx. destruct (roundPos_range x Hx) as [Hl _].
  pose proof (pow2_pos (ilog2 x)). lra.
Qed.

Lemma roundPos_comp x y : 0 < x -> x == y -> roundPos x == roundPos y.
Proof.
  intros Hx E. unfold roundPos. cbv zeta.
  rewrite <- (ilog2_comp x y Hx E).
  assert (H : x / pow2 (ilog2 x - 52) == y / pow2 (ilog2 x - 52))
    by (unfold Qdiv; apply Qmult_comp; [exact E | reflexivity]).
  rewrite (rne_comp _ _ H). reflexivity.
Qed.

Lemma roundPos_mono x y : 0 < x -> x <= y -> roundPos x <= roundPos y.
Proof.
  intros Hx Hxy. assert (Hy : 0 < y) by lra.
  pose proof (ilog2_mono x y Hx Hxy) as HL.
  destruct (Z.eq_dec (ilog2 x) (ilog2 y)) as [E | NE].
  - unfold roundPos. cbv zeta. rewrite <- E.
    pose proof (pow2_pos (ilog2 x - 52)) as He.
    apply Qmult_le_compat_r; [| lra].
    rewrite <- Zle_Qle. apply rne_mono.
    apply Qle_shift_div_l; [exact He |].
    field_simplify (x / pow2 (ilog2 x - 52) * pow2 (ilog2 x - 52)); [lra | apply pow2_nz].
  - destruct (roundPos_range x Hx) as [_ Hu].
    destruct (roundPos_range y Hy) as [Hl _].
    assert (Hp : pow2 (ilog2 x + 1) <= pow2 (ilog2 y)) by (apply pow2_le; lia).
    lra.
Qed.

Lemma ilog2_Z m : (0 < m)%Z -> ilog2 (inject_Z m) = Z.log2 m.
Proof.
  intros Hm. pose proof (Z.log2_spec m Hm) as [H1 H2].
  pose proof (Z.log2_nonneg m).
  apply ilog2_unique.
  - rewrite pow2_Z by lia. rewrite <- Zle_Qle. exact H1.
  - rewrite pow2_Z by lia. rewrite <- Zlt_Qlt. exact H2.
Qed.

Lemma roundPos_repr m k : (0 < m < 2 ^ 53)%Z ->
  roundPos (inject_Z m * pow2 k) == inject_Z m * pow2 k.
Proof.
  intros [Hm1 Hm2].
  assert (Hmq : 0 < inject_Z m) by (change 0 with (inject_Z 0); rewrite <- Zlt_Qlt; exact Hm1).
  pose proof (pow2_pos k) as Hk.
  assert (Ha : (Z.log2 m < 53)%Z) by (apply Z.log2_lt_pow2; lia).
  pose proof (Z.log2_nonneg m) as Ha0.
  unfold roundPos. cbv zeta.
  rewrite (ilog2_scale _ k Hmq), (ilog2_Z m Hm1).
  set (a := Z.log2 m) in *.
  assert (E : inject_Z m * pow2 k / pow2 (a + k - 52) == inject_Z (m * 2 ^ (52 - a))).
  { rewrite inject_Z_mult, <- pow2_Z by lia.
    replace (a + k - 52)%Z with (k - (52 - a))%Z by lia.
    rewrite pow2_sub. field. split; apply pow2_nz. }
  rewrite (rne_comp _ _ E), rne_Z.
  rewrite inject_Z_mult, <- pow2_Z by lia.
  rewrite <- Qmult_assoc, <- pow2_add.
  replace (52 - a + (a + k - 52))%Z with k by lia. reflexivity.
Qed.

(** Rounding of rationals of either sign. *)

Lemma Qnum_pos x : 0 < x -> exists p, Qnum x = Zpos p.
Proof.
  destruct x as [[| p | p] d]; unfold Qlt; simpl; intros H; try lia. eauto.
Qed.

Lemma Qnum_neg x : x < 0 -> exists p, Qnum x = Zneg p.
Proof.
  destruct x as [[| p | p] d]; unfold Qlt; simpl; intros H; try lia. eauto.
Qed.

Lemma Qnum_zero x : x == 0 -> Qnum x = 0%Z.
Proof.
  destruct x as [n d]; unfold Qeq; simpl; intros H. lia.
Qed.

Lemma roundQ_pos x : 0 < x -> roundQ x = roundPos x.
Proof. intros H. destruct (Qnum_pos x H) as [p E]. unfold roundQ. rewrite E. reflexivity. Qed.

Lemma roundQ_neg x : x < 0 -> roundQ x = - roundPos (- x).
Proof. intros H. destruct (Qnum_neg x H) as [p E]. unfold roundQ. rewrite E. reflexivity. Qed.

Lemma roundQ_zero x : x == 0 -> roundQ x = 0.
Proof. intros H. unfold roundQ. rewrite (Qnum_zero x H). reflexivity. Qed.

Lemma Q_trichotomy x : {x < 0} + {x == 0} + {0 < x}.
Proof.
  destruct (Q_dec x 0) as [[H | H] | H]; auto.
Qed.

Lemma roundQ_comp x y : x == y -> roundQ x == roundQ y.
Proof.
  intros E. destruct (Q_trichotomy x) as [[H | H] | H].
  - rewrite (roundQ_neg x H), (roundQ_neg y) by lra.
    apply Qopp_comp. apply roundPos_comp; [lra | rewrite E; reflexivity].
  - rewrite (roundQ_zero x H), (roundQ_zero y) by lra. reflexivity.
  - rewrite (roundQ_pos x H), (roundQ_pos y) by lra.
    apply roundPos_comp; assumption.
Qed.


Lemma roundQ_sign_pos x : 0 < x -> 0 < roundQ x.
Proof. intros H. rewrite (roundQ_pos x H). apply roundPos_pos. exact H. Qed.

Lemma roundQ_sign_neg x : x < 0 -> roundQ x < 0.
Proof.
  intros H. rewrite (roundQ_neg x H).
  assert (0 < roundPos (- x)) by (apply roundPos_pos; lra). lra.
Qed.

Lemma roundQ_nonneg x : 0 <= x -> 0 <= roundQ x.
Proof.
  intros H. destruct (Q_trichotomy x) as [[H' | H'] | H'].
  - lra.
  - rewrite (roundQ_zero x H'). lra.
  - apply Qlt_le_weak. apply roundQ_sign_pos. exact H'.
Qed.

Lemma roundQ_mono x y : x <= y -> roundQ x <= roundQ y.
Proof.
  intros Hxy.
  destruct (Q_trichotomy x) as [[Hx | Hx] | Hx];
    destruct (Q_trichotomy y) as [[Hy | Hy] | Hy]; try lra.
  - rewrite (roundQ_neg x Hx), (roundQ_neg y Hy).
    apply Qopp_le_compat. apply roundPos_mono; lra.
  - rewrite (roundQ_zero y Hy). apply Qlt_le_weak. apply roundQ_sign_neg. exact Hx.
  - apply Qle_trans with 0.
    + apply Qlt_le_weak. apply roundQ_sign_neg. exact Hx.
    + apply Qlt_le_weak. apply roundQ_sign_pos. exact Hy.
  - rewrite (roundQ_zero x Hx), (roundQ_zero y Hy). lra.
  - rewrite (roundQ_zero x Hx). apply Qlt_le_weak. apply roundQ_sign_pos. exact Hy.
  - rewrite (roundQ_pos x Hx), (roundQ_pos y Hy). apply roundPos_mono; assumption.
Qed.

Lemma roundQ_repr m k : (Z.abs m < 2 ^ 53)%Z ->
  roundQ (inject_Z m * pow2 k) == inject_Z m * pow2 k.
Proof.
  intros Hm. pose proof (pow2_pos k) as Hk.
  destruct (Z_dec m 0) as [[H | H] | H].
  - assert (Hq : inject_Z m < 0) by (change 0 with (inject_Z 0); rewrite <- Zlt_Qlt; exact H).
    assert (Hx : inject_Z m * pow2 k < 0).
    { rewrite <- (Qmult_0_l (pow2 k)). apply Qmult_lt_compat_r; assumption. }
    rewrite (roundQ_neg _ Hx).
    assert (E : - (inject_Z m * pow2 k) == inject_Z (- m) * pow2 k)
      by (rewrite inject_Z_opp; ring).
    assert (Hpos : 0 < - (inject_Z m * pow2 k)) by lra.
    rewrite (roundPos_comp _ _ Hpos E), roundPos_repr by lia.
    rewrite inject_Z_opp. ring.
  - assert (Hq : 0 < inject_Z m) by (change 0 with (inject_Z 0); rewrite <- Zlt_Qlt; lia).
    assert (Hx : 0 < inject_Z m * pow2 k).
    { rewrite <- (Qmult_0_l (pow2 k)). apply Qmult_lt_compat_r; assumption. }
    rewrite (roundQ_pos _ Hx). apply roundPos_repr. lia.
  - subst m. rewrite roundQ_zero; [| ring]. ring.
Qed.

Lemma roundQ_Z n : (Z.abs n <= 2 ^ 53)%Z -> roundQ (inject_Z n) == inject_Z n.
Proof.
  intros Hn.
  destruct (Z_lt_le_dec (Z.abs n) (2 ^ 53)) as [Hlt | Hge].
  - assert (E : inject_Z n == inject_Z n * pow2 0) by (change (pow2 0) with 1; ring).
    rewrite (roundQ_comp _ _ E), (roundQ_repr n 0 Hlt). symmetry. exact E.
  - assert (E : inject_Z n == inject_Z (n / 2) * pow2 1).
    { change (pow2 1) with (inject_Z 2). rewrite <- inject_Z_mult.
      assert (n = n / 2 * 2)%Z as <-; [| reflexivity].
      assert (Z.abs n = 2 ^ 53)%Z by lia.
      destruct (Z.abs_eq_or_opp n) as [H' | H']; rewrite H' in H.
      - rewrite H. reflexivity.
      - assert (n = - 2 ^ 53)%Z as -> by lia. reflexivity. }
    rewrite (roundQ_comp _ _ E), roundQ_repr; [symmetry; exact E |].
    assert (Z.abs n = 2 ^ 53)%Z by lia.
    destruct (Z.abs_eq_or_opp n) as [H' | H']; rewrite H' in H.
    + rewrite H. reflexivity.
    + assert (n = - 2 ^ 53)%Z as -> by lia. reflexivity.
Qed.











End Rounding.

Lemma round64_this (q : Qc) : (this (round64 q) == roundQ q)%Q.
Proof. unfold round64. simpl. apply Qred_correct. Qed.

(** Rounding is monotone. *)
Lemma round64_mono (p q : Qc) : (p <= q)%Qc -> (round64 p <= round64 q)%Qc.
Proof.
  intros H. unfold Qcle. rewrite !round64_this. apply roundQ_mono. exact H.
Qed.

Lemma round64_nonneg (q : Qc) : (0 <= q)%Qc -> (0 <= round64 q)%Qc.
Proof.
  intros H. unfold Qcle. rewrite round64_this. change (this 0%Qc) with 0%Q.
  apply roundQ_nonneg. exact H.
Qed.




(** Whole numbers up to [2^53] are doubles. *)
Lemma round64_Z (n : Z) : (Z.abs n <= 2 ^ 53)%Z -> round64 (Qc_of_Z n) = Qc_of_Z n.
Proof.
  intros Hn. apply Qc_is_canon. rewrite round64_this.
  assert (E : (this (Qc_of_Z n) == inject_Z n)%Q) by reflexivity.
  rewrite (roundQ_comp _ _ E), (roundQ_Z n Hn). symmetry. exact E.
Qed.


Lemma round64_le_Z (q : Qc) (n : Z) :
  (Z.abs n <= 2 ^ 53)%Z -> (q <= Qc_of_Z n)%Qc -> (round64 q <= Qc_of_Z n)%Qc.
Proof. intros Hn H. rewrite <- (round64_Z n Hn). by apply round64_mono. Qed.

Lemma round64_ge_Z (q : Qc) (n : Z) :
  (Z.abs n <= 2 ^ 53)%Z -> (Qc_of_Z n <= q)%Qc -> (Qc_of_Z n <= round64 q)%Qc.
Proof. intros Hn H. rewrite <- (round64_Z n Hn). by apply round64_mono. Qed.







Lemma num_eqb_eq (x y : num) : num_eqb x y = true -> x = y.
Proof.
  destruct x as [a| | |], y as [b| | |]; simpl; try discriminate; try reflexivity.
  destruct (a ?= b)%Qc eqn:E; try discriminate.
  intros _. f_equal. by apply Qceq_alt.
Qed.

(** Decides a closed equation between numbers by evaluation. *)
Ltac num_eq := apply num_eqb_eq; vm_compute; reflexivity.

Lemma Qc_of_Z_nonzero (n : Z) : n <> 0%Z -> Qc_of_Z n <> 0%Qc.
Proof.
  intros Hn H. apply Hn. apply Z2Qc_inj. by rewrite Z2Qc_inj_0.
Qed.

Lemma div_Fin (a b : Qc) :
  b <> 0%Qc -> div (Fin a) (Fin b) = Fin (round64 (a / b)).
Proof.
  intros Hb. unfold div.
  destruct (b ?= 0)%Qc eqn:E; try reflexivity.
  exfalso. apply Hb. by apply Qceq_alt.
Qed.

Lemma mul_Fin (a b : Qc) : mul (Fin a) (Fin b) = Fin (round64 (a * b)).
Proof. reflexivity. Qed.

Lemma add_Fin (a b : Qc) : add (Fin a) (Fin b) = Fin (round64 (a + b)).
Proof. reflexivity. Qed.

Lemma Fin_inj (a b : Qc) : Fin a = Fin b -> a = b.
Proof.
  intros H. exact (f_equal (fun x => match x with Fin q => q | _ => a end) H).
Qed.

Lemma int_inj (n m : Z) : int n = int m -> n = m.
Proof. intros H. apply Z2Qc_inj. by apply Fin_inj. Qed.


(** The comparison of two integers is the comparison of their images. *)
Lemma Qc_of_Z_compare (n m : Z) : (Qc_of_Z n ?= Qc_of_Z m)%Qc = (n ?= m)%Z.
Proof.
  destruct (n ?= m)%Z eqn:E.
  - apply Z.compare_eq in E. subst. exact (proj1 (Qceq_alt _ _) eq_refl).
  - refine (proj1 (Qclt_alt _ _) _). refine (proj1 (Z2Qc_inj_lt _ _) _).
    exact (proj1 (Z.compare_lt_iff _ _) E).
  - refine (proj1 (Qcgt_alt _ _) _). refine (proj1 (Z2Qc_inj_lt _ _) _).
    exact (proj1 (Z.compare_gt_iff _ _) E).
Qed.

(** [Qfloor] of a canonical rational, and the inequalities that pin it. *)
Lemma Qc_floor_spec (q : Qc) :
  (Qc_of_Z (Qfloor q) <= q)%Qc /\ (q < Qc_of_Z (Qfloor q + 1))%Qc.
Proof.
  split.
  - unfold Qcle. simpl. apply Qfloor_le.
  - unfold Qclt. simpl. apply Qlt_floor.
Qed.

Lemma Qc_floor_mono (p q : Qc) : (p <= q)%Qc -> (Qfloor p <= Qfloor q)%Z.
Proof. intros H. apply Qfloor_resp_le. exact H. Qed.

Lemma Qc_floor_unique (q : Qc) (k : Z) :
  (Qc_of_Z k <= q)%Qc -> (q < Qc_of_Z (k + 1))%Qc -> Qfloor q = k.
Proof.
  intros Hl Hu. destruct (Qc_floor_spec q) as [Fl Fu].
  assert (H1 : (Qc_of_Z k < Qc_of_Z (Qfloor q + 1))%Qc)
    by (eapply Qcle_lt_trans; eauto).
  assert (H2 : (Qc_of_Z (Qfloor q) < Qc_of_Z (k + 1))%Qc)
    by (eapply Qcle_lt_trans; eauto).
  apply (proj2 (Z2Qc_inj_lt _ _)) in H1. apply (proj2 (Z2Qc_inj_lt _ _)) in H2. lia.
Qed.

Lemma Qfloor_Qc_of_Z (k : Z) : Qfloor (Qc_of_Z k) = k.
Proof. simpl. apply Qfloor_Z. Qed.

Lemma Math_round_Fin (q : Qc) : Math_round (Fin q) = int (Qfloor (q + half)%Qc).
Proof. reflexivity. Qed.

Lemma Math_min_int (n k : Z) : Math_min (int n) (int k) = int (Z.min n k).
Proof.
  unfold Math_min, int. rewrite Qc_of_Z_compare.
  destruct (n ?= k)%Z eqn:E.
  - apply Z.compare_eq in E. subst. by rewrite Z.min_id.
  - apply (proj1 (Z.compare_lt_iff _ _)) in E. by rewrite Z.min_l by lia.
  - apply (proj1 (Z.compare_gt_iff _ _)) in E. by rewrite Z.min_r by lia.
Qed.

(** An integer plus one half rounds down to the integer. *)
Lemma Qfloor_int_half (n : Z) : Qfloor (Qc_of_Z n + half)%Qc = n.
Proof.
  apply Qc_floor_unique.
  - rewrite <- (Qcplus_0_r (Qc_of_Z n)) at 1.
    apply Qcplus_le_compat; [apply Qcle_refl | done].
  - rewrite Z2Qc_inj_add. refine (proj1 (Qcplus_lt_mono_l _ _ _) _). done.
Qed.

(** Rounding commutes with capping at an integer. *)
Lemma Math_round_min_int (x : Qc) (n : Z) :
  Math_round (Math_min (Fin x) (int n)) = Math_min (int n) (Math_round (Fin x)).
Proof.
  rewrite (Math_round_Fin x), Math_min_int.
  unfold Math_min, int at 1.
  destruct (x ?= Qc_of_Z n)%Qc eqn:E.
  - apply (proj2 (Qceq_alt _ _)) in E. subst x.
    rewrite Math_round_Fin, Qfloor_int_half. f_equal. lia.
  - apply (proj2 (Qclt_alt _ _)) in E.
    rewrite Math_round_Fin. f_equal.
    pose proof (Qc_floor_mono (x + half)%Qc (Qc_of_Z n + half)%Qc) as H.
    rewrite Qfloor_int_half in H.
    assert (Hle : (x + half <= Qc_of_Z n + half)%Qc)
      by (apply Qcplus_le_compat; [by apply Qclt_le_weak | apply Qcle_refl]).
    specialize (H Hle). lia.
  - apply (proj2 (Qcgt_alt _ _)) in E.
    change (Math_round (Fin (Qc_of_Z n))) with (int (Qfloor (Qc_of_Z n + half)%Qc)).
    rewrite Qfloor_int_half. f_equal.
    pose proof (Qc_floor_mono (Qc_of_Z n + half)%Qc (x + half)%Qc) as H.
    rewrite Qfloor_int_half in H.
    assert (Hle : (Qc_of_Z n + half <= x + half)%Qc)
      by (apply Qcplus_le_compat; [by apply Qclt_le_weak | apply Qcle_refl]).
    specialize (H Hle). lia.
Qed.

(* ===================================================================== *)
(** ** Metrics *)
(* ===================================================================== *)

(** C1 (the code departs from the claim).  With a system size of 0 the
    unguarded [calculateEfficiencyScore] computes [0 / 0]: its result is
    [NaN], not 0.  The aggregate path guards the call with
    [totalPower > 0] and shows 0, but the single-zone path
    ([updateSelectedZoneStats]) does not: for the selected zone with the
    slider at 0 panels it shows [NaN]% efficiency. *)
Theorem C1_zero_size_single_zone_is_NaN :
  let s := fst (zonePanelCount_input (int 0) exampleOneZone) in
  calculateEfficiencyScore (int 0) (int 0) = NaN /\
  ZoneStats.selectedZoneSavings <$> updateSelectedZoneStats s = Some NaN /\
  Totals.overallEfficiency (computeTotals s) = int 0.
Proof. repeat split; vm_compute; reflexivity. Qed.


(** C8, the claim as stated fails: a sample whose daily average is 0
    hours (fetched for days without sunshine, as in the polar night) is
    not used; the output is computed from 4.2 hours instead of being 0. *)
Lemma C8_zero_daily_hours_uses_default :
  let z := mkZone 1 1 polygon (int 100) (int 25) (int 400) (Fin (dec 85 100)) in
  let irradiance := fetchedSunlightData [Some (int 0); Some (int 0); None] in
  daily irradiance = int 0 /\
  calculateEnergyOutput (Some irradiance) z = Fin (dec 130305 10) /\
  mul (mul (mul (systemSizeOf z) (daily irradiance)) (int 365)) (efficiency z) = int 0 /\
  calculateEnergyOutput (Some irradiance) z
    <> mul (mul (mul (systemSizeOf z) (daily irradiance)) (int 365)) (efficiency z).
Proof.
  cbv zeta. split; [| split; [| split]].
  - num_eq.
  - num_eq.
  - num_eq.
  - intros H. apply (f_equal (fun x => num_eqb x (int 0))) in H.
    vm_compute in H. discriminate.
Qed.

(** C8 (amended).  For a zone with a non-zero performance ratio, the
    annual output is [(panelCount * panelWattage / 1000) * dailyHours *
    365 * performanceRatio] when a sample with a non-zero daily average is
    stored; with no sample, or a sample whose daily average is 0 or [NaN],
    the 4.2 hours default takes the place of [dailyHours]. *)
Theorem C8_calculateEnergyOutput (z : zoneData)
    (Hratio : truthy (efficiency z) = true) :
  (forall irradiance, truthy (daily irradiance) = true ->
     calculateEnergyOutput (Some irradiance) z
     = mul (mul (mul (systemSizeOf z) (daily irradiance)) (int 365)) (efficiency z)) /\
  calculateEnergyOutput None z
    = mul (mul (mul (systemSizeOf z) (Fin (dec 42 10))) (int 365)) (efficiency z) /\
  (forall irradiance, truthy (daily irradiance) = false ->
     calculateEnergyOutput (Some irradiance) z = calculateEnergyOutput None z).
Proof.
  unfold calculateEnergyOutput, systemSizeOf, or_else. rewrite Hratio.
  split; [| split].
  - intros d Hd. by rewrite Hd.
  - reflexivity.
  - intros d Hd. by rewrite Hd.
Qed.




(* ===================================================================== *)
(** ** Sunshine series *)
(* ===================================================================== *)

Lemma validHours_app (l1 l2 : list (option num)) :
  validHours (l1 ++ l2) = validHours l1 ++ validHours l2.
Proof. unfold validHours. apply omap_app. Qed.

Lemma processedHours_lookup (sunshine : list (option num)) (i : nat) :
  processedHours sunshine !! i = processHour <$> sunshine !! i.
Proof. unfold processedHours. apply list_lookup_fmap. Qed.

Lemma validHours_processed (sunshine : list (option num)) :
  validHours (processedHours sunshine)
  = map hoursOfValue (omap (fun h => h) sunshine).
Proof.
  unfold validHours, processedHours.
  induction sunshine as [| [v |] rest IH]; simpl.
  - reflexivity.
  - unfold hoursOfValue at 1. destruct (gt v (int 24)); f_equal; exact IH.
  - exact IH.
Qed.

(** C10.  Of the fetched sunshine durations, a value above 24 is taken
    as seconds and divided by 3600, a value of at most 24 is kept as it
    is, and a null entry stays null.  The daily average is the mean,
    rounded to one decimal, of exactly the converted non-null values:
    null entries take part neither in the sum nor in the count. *)
Theorem C10_sunshine_processing (sunshine : list (option num)) :
  length (processedHours sunshine) = length sunshine /\
  (forall i q, sunshine !! i = Some (Some (Fin q)) -> (Qc_of_Z 24 < q)%Qc ->
     processedHours sunshine !! i = Some (Some (Fin (round64 (q / Qc_of_Z 3600))))) /\
  (forall i q, sunshine !! i = Some (Some (Fin q)) -> (q <= Qc_of_Z 24)%Qc ->
     processedHours sunshine !! i = Some (Some (Fin q))) /\
  (forall i, sunshine !! i = Some None -> processedHours sunshine !! i = Some None) /\
  validHours (processedHours sunshine)
    = map hoursOfValue (omap (fun h => h) sunshine) /\
  daily (fetchedSunlightData sunshine)
    = meanToTenths (map hoursOfValue (omap (fun h => h) sunshine)) /\
  (forall l1 l2 : list (option num),
     daily (fetchedSunlightData (l1 ++ None :: l2))
     = daily (fetchedSunlightData (l1 ++ l2))) /\
  daily (fetchedSunlightData [Some (int 36000); None; Some (int 5)]) = Fin (dec 75 10) /\
  daily (fetchedSunlightData [Some (int 1260); Some (int 1260); Some (int 1260)])
    = Fin (dec 3 10).
Proof.
  assert (Hdaily : forall l : list (option num),
            daily (fetchedSunlightData l)
            = meanToTenths (map hoursOfValue (omap (fun h => h) l))).
  { intros l. unfold fetchedSunlightData. cbv zeta. cbn [daily].
    unfold calculateDailyAverage. cbv zeta. by rewrite validHours_processed. }
  split; [apply length_map |].
  split; [| split; [| split; [| split; [| split; [| split; [| split]]]]]].
  - intros i q Hi Hq. rewrite processedHours_lookup, Hi.
    change (processHour <$> Some (Some (Fin q))) with (Some (processHour (Some (Fin q)))).
    unfold processHour.
    assert (Hgt : gt (Fin q) (int 24) = true)
      by (unfold gt, int; by rewrite (proj1 (Qcgt_alt _ _) Hq)).
    rewrite Hgt. change (int 3600) with (Fin (Qc_of_Z 3600)).
    by rewrite div_Fin by (apply Qc_of_Z_nonzero; lia).
  - intros i q Hi Hq. rewrite processedHours_lookup, Hi.
    change (processHour <$> Some (Some (Fin q))) with (Some (processHour (Some (Fin q)))).
    unfold processHour.
    assert (Hgt : gt (Fin q) (int 24) = false).
    { unfold gt, int. apply (proj1 (Qcle_alt _ _)) in Hq.
      destruct (q ?= Qc_of_Z 24)%Qc; try reflexivity. by destruct Hq. }
    by rewrite Hgt.
  - intros i Hi. by rewrite processedHours_lookup, Hi.
  - apply validHours_processed.
  - apply Hdaily.
  - intros l1 l2. rewrite !Hdaily. by rewrite !omap_app.
  - num_eq.
  - num_eq.
Qed.

(* ===================================================================== *)
(** ** Aggregation *)
(* ===================================================================== *)

Lemma Totals_ext (t : Totals.t) (z a p w o e : num) :
  Totals.zones t = z -> Totals.totalArea t = a -> Totals.totalPanels t = p ->
  Totals.totalPower t = w -> Totals.totalAnnualOutput t = o ->
  Totals.overallEfficiency t = e -> t = Totals.mk z a p w o e.
Proof. destruct t. simpl. by intros -> -> -> -> -> ->. Qed.

(** The four running totals of [updateZoneAnalysis] are four independent
    left-to-right sums. *)
Lemma foldl_accumulateZone (s : app) (zs : list nat) (a p w o : num) :
  foldl (accumulateZone s) (a, p, w, o) zs =
  (foldl (fun acc r => add acc (area (zoneObjs s r))) a zs,
   foldl (fun acc r => add acc (panelCount (zoneObjs s r))) p zs,
   foldl (fun acc r => add acc (systemSizeOf (zoneObjs s r))) w zs,
   foldl (fun acc r => add acc (calculateEnergyOutput (sunlightData s) (zoneObjs s r))) o zs).
Proof.
  revert a p w o. induction zs as [| r zs IH]; intros a p w o.
  - reflexivity.
  - simpl. apply IH.
Qed.

(** C7, the claim as stated fails on its figure for the output: for the
    two example zones the total annual output is 26061 kWh (13030.5 kWh
    per zone), 7.5 kWh below the claimed 26068.5, and the panel shows
    26061, not 26069. *)
Lemma C7_example_output_is_26061 :
  let s := exampleAggregate (Some (sampleOf (Fin (dec 42 10)))) in
  Totals.totalAnnualOutput (computeTotals s) = int 26061 /\
  Totals.totalAnnualOutput (computeTotals s) <> Fin (dec 260685 10) /\
  add (Totals.totalAnnualOutput (computeTotals s)) (Fin (dec 75 10)) = Fin (dec 260685 10) /\
  Panel.totalOutput (updateZoneAnalysis s) = int 26061 /\
  toFixed 0 (Fin (dec 260685 10)) = int 26069.
Proof.
  cbv zeta. repeat split; try num_eq.
  intros H. apply (f_equal (fun x => num_eqb x (Fin (dec 260685 10)))) in H.
  vm_compute in H. discriminate.
Qed.

(** C7 (amended).  [updateZoneAnalysis] sums area, panel count, system
    size and annual output over all zones, and computes one overall
    efficiency score from the summed output and the summed size (0 when
    the summed size is not positive).  With no zone it shows all-zero
    totals.  For the two example zones (100 and 200 m2, 25 panels of 400 W
    each, ratio 0.85, 4.2 h a day) the totals are 20 kW, 26061 kWh and an
    overall efficiency of 100%. *)
Theorem C7_aggregate_totals (s : app) :
  Totals.totalArea (computeTotals s) = sumOver area s /\
  Totals.totalPanels (computeTotals s) = sumOver panelCount s /\
  Totals.totalPower (computeTotals s) = sumOver systemSizeOf s /\
  Totals.totalAnnualOutput (computeTotals s)
    = sumOver (calculateEnergyOutput (sunlightData s)) s /\
  Totals.overallEfficiency (computeTotals s)
    = (if gt (sumOver systemSizeOf s) (int 0)
       then calculateEfficiencyScore
              (sumOver (calculateEnergyOutput (sunlightData s)) s)
              (sumOver systemSizeOf s)
       else int 0) /\
  updateZoneAnalysis s
    = (if decide (drawingZones s = [])
       then Panel.mk (int 0) (int 0) (int 0) (int 0) (int 0) (int 0) false
       else showZoneAnalysis (computeTotals s)) /\
  computeTotals (set_drawingZones [] s)
    = Totals.mk (int 0) (int 0) (int 0) (int 0) (int 0) (int 0) /\
  computeTotals (exampleAggregate (Some (sampleOf (Fin (dec 42 10)))))
    = Totals.mk (int 2) (int 300) (int 50) (int 20) (int 26061) (int 100) /\
  computeTotals (exampleAggregate None)
    = Totals.mk (int 2) (int 300) (int 50) (int 20) (int 26061) (int 100).
Proof.
  assert (Hfields :
    Totals.totalArea (computeTotals s) = sumOver area s /\
    Totals.totalPanels (computeTotals s) = sumOver panelCount s /\
    Totals.totalPower (computeTotals s) = sumOver systemSizeOf s /\
    Totals.totalAnnualOutput (computeTotals s)
      = sumOver (calculateEnergyOutput (sunlightData s)) s /\
    Totals.overallEfficiency (computeTotals s)
      = (if gt (sumOver systemSizeOf s) (int 0)
         then calculateEfficiencyScore
                (sumOver (calculateEnergyOutput (sunlightData s)) s)
                (sumOver systemSizeOf s)
         else int 0)).
  { unfold computeTotals, sumOver. rewrite foldl_accumulateZone. cbv zeta.
    cbn [Totals.totalArea Totals.totalPanels Totals.totalPower
         Totals.totalAnnualOutput Totals.overallEfficiency].
    repeat split. }
  destruct Hfields as (H1 & H2 & H3 & H4 & H5).
  split; [exact H1 |]. split; [exact H2 |]. split; [exact H3 |].
  split; [exact H4 |]. split; [exact H5 |].
  split; [| split; [| split]].
  - unfold updateZoneAnalysis. destruct (drawingZones s) eqn:E.
    + by rewrite decide_True.
    + by rewrite decide_False.
  - reflexivity.
  - apply Totals_ext; num_eq.
  - apply Totals_ext; num_eq.
Qed.

(* ===================================================================== *)
(** ** The zone store: lookups *)
(* ===================================================================== *)

Lemma elem_of_delete_inv {A} (l : list A) (i : nat) (x : A) :
  x ∈ delete i l -> x ∈ l.
Proof.
  revert i. induction l as [| y l IH]; intros [| i]; simpl; intros H.
  - done.
  - done.
  - by apply elem_of_cons; right.
  - apply elem_of_cons in H as [-> | H].
    + apply elem_of_cons; by left.
    + apply elem_of_cons; right. by apply (IH i).
Qed.

Lemma elem_of_delete_other {A} (l : list A) (i : nat) (x y : A) :
  x ∈ l -> l !! i = Some y -> x <> y -> x ∈ delete i l.
Proof.
  revert i. induction l as [| z l IH]; intros [| i]; simpl; intros Hx Hi Hne.
  - done.
  - done.
  - injection Hi as ->. apply elem_of_cons in Hx as [-> | Hx]; done.
  - apply elem_of_cons in Hx as [-> | Hx].
    + apply elem_of_cons; by left.
    + apply elem_of_cons; right. by apply (IH i).
Qed.

(** In a store with unique ids, looking a zone up by its id finds it. *)
Lemma find_by_id (s : app) (r : nat) :
  r ∈ drawingZones s -> uniqueIds s ->
  exists i, list_find (hasId s (id (zoneObjs s r))) (drawingZones s) = Some (i, r).
Proof.
  intros Hin Huniq.
  destruct (list_find_elem_of (hasId s (id (zoneObjs s r))) (drawingZones s) r Hin eq_refl)
    as [[i x] Hfind].
  exists i. rewrite Hfind. do 2 f_equal.
  apply list_find_Some in Hfind as (Hi & Hx & _).
  apply Huniq; [by eapply list_elem_of_lookup_2 | done | exact Hx].
Qed.

(** In a store where no layer is shared, looking a zone up by its layer
    finds it. *)
Lemma find_by_layer (s : app) (r : nat) :
  r ∈ drawingZones s -> uniqueLayers s ->
  exists i, list_find (hasLayer s (layer (zoneObjs s r))) (drawingZones s) = Some (i, r).
Proof.
  intros Hin Huniq.
  destruct (list_find_elem_of (hasLayer s (layer (zoneObjs s r))) (drawingZones s) r Hin eq_refl)
    as [[i x] Hfind].
  exists i. rewrite Hfind. do 2 f_equal.
  apply list_find_Some in Hfind as (Hi & Hx & _).
  apply Huniq; [by eapply list_elem_of_lookup_2 | done | exact Hx].
Qed.

Lemma find_unknown_id (s : app) (zid : nat) :
  (forall r, r ∈ drawingZones s -> id (zoneObjs s r) <> zid) ->
  list_find (hasId s zid) (drawingZones s) = None.
Proof.
  intros H. apply list_find_None. apply Forall_forall. intros r Hr. by apply H.
Qed.


(* ===================================================================== *)
(** ** The zone store: geometry updates *)
(* ===================================================================== *)

(** C2 (amended).  When the geometry of a zone's layer has been replaced
    and [onDrawEdited] runs for that layer, the zone's area becomes the
    area of the new geometry, its panel count is reset to the default 25
    of [calculatePanelCount], its other fields are kept, and every other
    zone object, the zone list and the selection are unchanged. *)
Theorem C2_onDrawEdited_recomputes_area (s : app) (r : nat) (g : list (list LatLng))
    (Hin : r ∈ drawingZones s)
    (Huniq : uniqueLayers s) :
  let l := layer (zoneObjs s r) in
  let s' := onDrawEdited [l] (setLatLngs l g s) in
  latLngs (layerObjs s' l) = g /\
  area (zoneObjs s' r) = calculateArea (mkLayer (cls (layerObjs s l)) g (zoneId (layerObjs s l))) /\
  area (zoneObjs s' r) = calculateArea (layerObjs s' l) /\
  panelCount (zoneObjs s' r) = int 25 /\
  (id (zoneObjs s' r), layer (zoneObjs s' r), type (zoneObjs s' r),
   panelWattage (zoneObjs s' r), efficiency (zoneObjs s' r))
  = (id (zoneObjs s r), layer (zoneObjs s r), type (zoneObjs s r),
     panelWattage (zoneObjs s r), efficiency (zoneObjs s r)) /\
  (forall r', r' <> r -> zoneObjs s' r' = zoneObjs s r') /\
  drawingZones s' = drawingZones s /\
  selectedZone s' = selectedZone s.
Proof.
  intros l s'.
  destruct (find_by_layer s r Hin Huniq) as [i Hfind].
  assert (Hs' : s' = set_zoneObjs
            (<[r := with_panelCount (int 25)
                      (with_area (calculateArea (with_latLngs g (layerObjs s l))) (zoneObjs s r))]>
               (zoneObjs s)) (setLatLngs l g s)).
  { unfold s', onDrawEdited. simpl. unfold onDrawEdited_layer.
    change (list_find (hasLayer (setLatLngs l g s) l) (drawingZones (setLatLngs l g s)))
      with (list_find (hasLayer s l) (drawingZones s)).
    fold l in Hfind. rewrite Hfind. simpl. by rewrite fn_lookup_insert. }
  rewrite Hs'. simpl. rewrite !fn_lookup_insert. simpl.
  repeat split.
  intros r' Hr'. by rewrite fn_lookup_insert_ne.
Qed.

(* ===================================================================== *)
(** ** The zone store: selection *)
(* ===================================================================== *)

(** A created zone is appended to the store; the selection changes only
    when its callback runs. *)
Lemma onDrawCreated_appends (l : nat) (ty : layerType) (s : app) :
  let s' := onDrawCreated l ty s in
  drawingZones s' = drawingZones s ++ [S (zoneCounter s)] /\
  selectedZone s' = selectedZone s /\
  selectedZone (onDrawCreated_autoSelect (S (zoneCounter s)) s') = Some (S (zoneCounter s)).
Proof. by simpl. Qed.

(** [deleteZone] with an id that no zone of the store has changes
    nothing. *)
Lemma deleteZone_unknown_id (zid : nat) (s : app) :
  (forall r, r ∈ drawingZones s -> id (zoneObjs s r) <> zid) ->
  deleteZone zid s = s.
Proof.
  intros H. unfold deleteZone. by rewrite find_unknown_id.
Qed.

(** What [deleteZone] does when it finds the zone at index [i]. *)
Lemma deleteZone_found (zid : nat) (s : app) (i r : nat) :
  list_find (hasId s zid) (drawingZones s) = Some (i, r) ->
  let s' := deleteZone zid s in
  drawingZones s' = delete i (drawingZones s) /\
  zoneObjs s' = zoneObjs s /\
  selectedZone s' =
    match selectedZone s with
    | Some sel =>
        if decide (id (zoneObjs s sel) = zid)
        then head (delete i (drawingZones s))
        else Some sel
    | None => head (delete i (drawingZones s))
    end /\
  layerObjs s' = layerObjs s /\
  zoneCounter s' = zoneCounter s.
Proof.
  intros Hfind. unfold deleteZone. rewrite Hfind. simpl.
  destruct (selectedZone s) as [sel |] eqn:Hsel; simpl.
  - repeat case_decide; unfold hasId in *; simpl in *; try contradiction;
      destruct (delete i (drawingZones s)); simpl; rewrite ?Hsel; simpl;
      repeat split; try reflexivity; exact Hsel.
  - rewrite Hsel.
    destruct (delete i (drawingZones s)); simpl; repeat split;
      try reflexivity; exact Hsel.
Qed.

(** Deleting the selected zone with [deleteZone] moves the selection to
    the first remaining zone, or clears it when none remains. *)
Lemma deleteZone_selected (s : app) (r : nat) :
  selectedZone s = Some r -> r ∈ drawingZones s -> uniqueIds s ->
  let s' := deleteZone (id (zoneObjs s r)) s in
  selectedZone s' = head (drawingZones s').
Proof.
  intros Hsel Hin Huniq.
  destruct (find_by_id s r Hin Huniq) as [i Hfind].
  destruct (deleteZone_found _ _ _ _ Hfind) as (Hz & _ & Hs & _).
  simpl. rewrite Hs, Hz, Hsel. by rewrite decide_True.
Qed.

(** [deleteZone] keeps the selection inside the store. *)
Lemma deleteZone_selectionInStore (zid : nat) (s : app) :
  selectionInStore s -> selectionInStore (deleteZone zid s).
Proof.
  intros Hinv.
  destruct (list_find (hasId s zid) (drawingZones s)) as [[i r] |] eqn:Hfind.
  - destruct (deleteZone_found _ _ _ _ Hfind) as (Hz & _ & Hs & _).
    intros sel' Hsel'. rewrite Hz. rewrite Hs in Hsel'.
    assert (Hhead : forall x, head (delete i (drawingZones s)) = Some x ->
                               x ∈ delete i (drawingZones s)).
    { intros x Hx. destruct (delete i (drawingZones s)); simplify_eq/=.
      apply elem_of_cons. by left. }
    destruct (selectedZone s) as [sel |] eqn:Hsel; [| by apply Hhead].
    destruct (decide (id (zoneObjs s sel) = zid)) as [Heq | Hne]; [by apply Hhead |].
    injection Hsel' as <-.
    apply list_find_Some in Hfind as (Hi & Hid & _).
    eapply elem_of_delete_other; [by apply Hinv | exact Hi |].
    intros ->. by apply Hne.
  - unfold deleteZone. by rewrite Hfind.
Qed.

(* ===================================================================== *)
(** ** The zone store: sequences of creations and deletions *)
(* ===================================================================== *)

Lemma calculateArea_with_zoneId (n : nat) (lay : layerObj) :
  calculateArea (with_zoneId n lay) = calculateArea lay.
Proof. reflexivity. Qed.

Lemma idsFromCounter_uniqueIds (s : app) : idsFromCounter s -> uniqueIds s.
Proof.
  intros H r r' Hr Hr' Hid.
  destruct (H r Hr) as [_ <-]. destruct (H r' Hr') as [_ <-]. exact Hid.
Qed.

Lemma storeInv_init (ls : nat -> layerObj) (zs : nat -> zoneData) :
  storeInv (init ls zs).
Proof.
  split; intros r Hr; simpl in Hr; by apply elem_of_nil in Hr.
Qed.

Lemma storeInv_onDrawCreated (l : nat) (ty : layerType) (s : app) :
  storeInv s -> storeInv (onDrawCreated l ty s).
Proof.
  intros (Hids & Hsync).
  assert (Hold : forall r, r ∈ drawingZones s -> r <> S (zoneCounter s)).
  { intros r Hr. destruct (Hids r Hr) as [Hle _]. lia. }
  split.
  - intros r Hr. simpl in Hr. apply elem_of_app in Hr as [Hr | Hr].
    + simpl. rewrite fn_lookup_insert_ne by (intros E; by apply (Hold r Hr)).
      destruct (Hids r Hr) as [Hle Hid]. split; [lia | exact Hid].
    + apply list_elem_of_singleton in Hr as ->. simpl.
      rewrite fn_lookup_insert. split; [lia | reflexivity].
  - intros r Hr. simpl in Hr. apply elem_of_app in Hr as [Hr | Hr].
    + simpl. rewrite fn_lookup_insert_ne by (intros E; by apply (Hold r Hr)).
      rewrite (Hsync r Hr).
      destruct (decide (l = layer (zoneObjs s r))) as [<- | Hne].
      * by rewrite fn_lookup_insert, calculateArea_with_zoneId.
      * by rewrite fn_lookup_insert_ne.
    + apply list_elem_of_singleton in Hr as ->. simpl.
      by rewrite !fn_lookup_insert.
Qed.

Lemma storeInv_autoSelect (zoneData : nat) (s : app) :
  storeInv s -> storeInv (onDrawCreated_autoSelect zoneData s).
Proof. intros H. exact H. Qed.

Lemma storeInv_deleteZone (zid : nat) (s : app) :
  storeInv s -> storeInv (deleteZone zid s).
Proof.
  intros (Hids & Hsync).
  destruct (list_find (hasId s zid) (drawingZones s)) as [[i r] |] eqn:Hfind.
  - destruct (deleteZone_found _ _ _ _ Hfind) as (Hz & Hobj & _ & Hlay & Hcnt).
    split.
    + intros r' Hr'. rewrite Hz in Hr'. apply elem_of_delete_inv in Hr'.
      rewrite Hobj, Hcnt. by apply Hids.
    + intros r' Hr'. rewrite Hz in Hr'. apply elem_of_delete_inv in Hr'.
      rewrite Hobj, Hlay. by apply Hsync.
  - unfold deleteZone. by rewrite Hfind.
Qed.

Lemma storeInv_applyOp (o : storeOp) (p : page) :
  storeInv (appOf p) -> storeInv (appOf (applyOp p o)).
Proof.
  intros Hp. destruct o as [l ty | | zid]; simpl.
  - by apply storeInv_onDrawCreated.
  - destruct (pendingAutoSelect p) as [| zoneData rest]; [exact Hp |].
    by apply storeInv_autoSelect.
  - by apply storeInv_deleteZone.
Qed.

(** After any sequence of zone creations, auto-select callbacks and
    [deleteZone] calls, in any order, zone objects are referenced by the
    number of their id and every stored area is the area of the zone's
    geometry. *)
Lemma storeInv_runOps (ops : list storeOp) (p : page) :
  storeInv (appOf p) -> storeInv (appOf (runOps ops p)).
Proof.
  revert p. induction ops as [| o ops IH]; intros p Hp; [exact Hp |].
  simpl. apply IH. by apply storeInv_applyOp.
Qed.

(** As long as no zone is deleted while a callback is pending, the
    selection and the zones that pending callbacks will select are zones
    of the store. *)
Lemma selectionInv_runOps (ops : list storeOp) (p : page) :
  quiet ops (length (pendingAutoSelect p)) = true ->
  selectionInv p -> selectionInv (runOps ops p).
Proof.
  revert p. induction ops as [| o ops IH]; intros [a pend] Hq Hp; [exact Hp |].
  destruct Hp as [Hsel Hpend]. simpl in Hsel, Hpend, Hq.
  change (runOps (o :: ops) (mkPage a pend)) with (runOps ops (applyOp (mkPage a pend) o)).
  destruct o as [l ty | | zid].
  - apply IH.
    + simpl. rewrite length_app. simpl.
      by replace (length pend + 1)%nat with (S (length pend)) by lia.
    + split.
      * intros r Hr. simpl in Hr. simpl. apply elem_of_app. left. by apply Hsel.
      * intros r Hr. simpl in Hr. simpl.
        apply elem_of_app in Hr as [Hr | Hr]; apply elem_of_app;
          [left; by apply Hpend | by right].
  - destruct pend as [| zoneData rest].
    + apply IH; [exact Hq | by split].
    + apply IH; [exact Hq |]. split.
      * intros r Hr. simpl in Hr. injection Hr as <-. simpl.
        apply Hpend. apply elem_of_cons. by left.
      * intros r Hr. simpl in Hr. simpl. apply Hpend. apply elem_of_cons. by right.
  - apply andb_true_iff in Hq as [Hz Hq]. apply Nat.eqb_eq in Hz.
    destruct pend as [| zoneData rest]; [| discriminate].
    apply IH; [exact Hq |]. split.
    + by apply deleteZone_selectionInStore.
    + intros r Hr. simpl in Hr. by apply elem_of_nil in Hr.
Qed.

Lemma runOps_from_load (ops : list storeOp) (ls : nat -> layerObj) (zs : nat -> zoneData) :
  let s := appOf (runOps ops (load ls zs)) in
  uniqueIds s /\ areaInSync s /\ (quiet ops 0 = true -> selectionInStore s).
Proof.
  destruct (storeInv_runOps ops (load ls zs) (storeInv_init ls zs)) as (H1 & H2).
  split; [by apply idsFromCounter_uniqueIds |]. split; [exact H2 |].
  intros Hq. apply (selectionInv_runOps ops (load ls zs) Hq).
  split; intros r Hr; simpl in Hr; [discriminate | by apply elem_of_nil in Hr].
Qed.

(** C3 (the code departs from the claim).  Deleting through the map's
    delete tool runs [onDrawDeleted], which removes the zones from the
    store but never touches the selection.  After one zone is created
    (and selected) and then deleted this way, the store is empty while
    [selectedZone] still refers to the deleted zone; with two zones,
    deleting the selected one leaves it selected instead of selecting the
    first remaining zone.  [deleteZone] on the same states does what the
    claim says. *)
Theorem C3_onDrawDeleted_keeps_deleted_zone_selected :
  (drawingZones exampleOneZone = [1%nat] /\ selectedZone exampleOneZone = Some 1%nat) /\
  (let s := onDrawDeleted [1%nat] exampleOneZone in
   drawingZones s = [] /\ selectedZone s = Some 1%nat /\ ~ selectionInStore s) /\
  (let s := onDrawDeleted [2%nat] exampleTwoZones in
   drawingZones s = [1%nat] /\ selectedZone s = Some 2%nat /\ ~ selectionInStore s) /\
  (let s := deleteZone 1 exampleOneZone in
   drawingZones s = [] /\ selectedZone s = None) /\
  (let s := deleteZone 2 exampleTwoZones in
   drawingZones s = [1%nat] /\ selectedZone s = Some 1%nat).
Proof.
  repeat split; try (vm_compute; reflexivity).
  - intros H. specialize (H 1%nat eq_refl). vm_compute in H. by apply elem_of_nil in H.
  - intros H. specialize (H 2%nat eq_refl).
    change (2%nat ∈ [1%nat]) in H.
    apply list_elem_of_singleton in H. discriminate.
Qed.

(* ===================================================================== *)
(** ** The zone store: edit sessions *)
(* ===================================================================== *)

(** Dragging vertices changes the geometry of the layer and nothing
    else. *)
Lemma mutateGeometry_frame (l : nat) (gs : list (list (list LatLng))) (s : app) :
  let s' := mutateGeometry l gs s in
  zoneObjs s' = zoneObjs s /\
  drawingZones s' = drawingZones s /\
  drawnItems s' = drawnItems s /\
  originalGeometry s' = originalGeometry s /\
  currentEditingZone s' = currentEditingZone s /\
  currentEditHandler s' = currentEditHandler s /\
  cls (layerObjs s' l) = cls (layerObjs s l) /\
  zoneId (layerObjs s' l) = zoneId (layerObjs s l).
Proof.
  revert s. induction gs as [| g gs IH]; intros s; simpl.
  - repeat split.
  - destruct (IH (setLatLngs l g s)) as (H1 & H2 & H3 & H4 & H5 & H6 & H7 & H8).
    unfold mutateGeometry in *. simpl in *.
    rewrite H1, H2, H3, H4, H5, H6, H7, H8, !fn_lookup_insert.
    repeat split.
Qed.

(** What [editZone] does for the id of a zone of the store. *)
Lemma editZone_found (s : app) (r : nat) :
  r ∈ drawingZones s -> uniqueIds s ->
  editZone (id (zoneObjs s r)) s =
  set_currentEditHandler (Some (mkHandler [layer (zoneObjs s r)]))
    (set_currentEditingZone (Some r)
       (set_originalGeometry (Some (toGeoJSON (layerObjs s (layer (zoneObjs s r))))) s)).
Proof.
  intros Hin Huniq. destruct (find_by_id s r Hin Huniq) as [i Hfind].
  unfold editZone. by rewrite Hfind.
Qed.

(** C5 (amended).  Only one edit session is tracked, but a second
    [editZone] is not rejected: called for a zone of the store, whatever
    session is active, it stores that zone's snapshot, makes it the
    editing zone and installs a handler for its layer, replacing the
    previous session.  Only an id that no zone has leaves the session as
    it was. *)
Theorem C5_editZone_replaces_session (s : app) (r : nat)
    (Hin : r ∈ drawingZones s)
    (Huniq : uniqueIds s) :
  let s' := editZone (id (zoneObjs s r)) s in
  currentEditingZone s' = Some r /\
  originalGeometry s' = Some (toGeoJSON (layerObjs s (layer (zoneObjs s r)))) /\
  currentEditHandler s' = Some (mkHandler [layer (zoneObjs s r)]) /\
  zoneObjs s' = zoneObjs s /\
  layerObjs s' = layerObjs s /\
  drawingZones s' = drawingZones s /\
  selectedZone s' = selectedZone s /\
  (forall zid, (forall r', r' ∈ drawingZones s -> id (zoneObjs s r') <> zid) ->
     editZone zid s = s).
Proof.
  simpl. rewrite (editZone_found s r Hin Huniq). simpl.
  repeat split.
  intros zid Hzid. unfold editZone. by rewrite find_unknown_id.
Qed.


(* ===================================================================== *)
(** ** Further properties of the zone store: deletion *)
(* ===================================================================== *)

Lemma NoDup_delete {A} (l : list A) (i : nat) : NoDup l -> NoDup (delete i l).
Proof.
  revert i. induction l as [| x l IH]; intros [| i] H; simpl; try done.
  - by apply NoDup_cons in H as [_ H].
  - apply NoDup_cons in H as [Hx H]. apply NoDup_cons. split.
    + intros Hin. apply Hx. by apply elem_of_delete_inv in Hin.
    + by apply IH.
Qed.

Lemma not_elem_of_delete {A} (l : list A) (i : nat) (x : A) :
  NoDup l -> l !! i = Some x -> x ∉ delete i l.
Proof.
  revert i. induction l as [| y l IH]; intros [| i] Hnd Hi; simpl in *; try done.
  - injection Hi as ->. by apply NoDup_cons in Hnd as [Hx _].
  - apply NoDup_cons in Hnd as [Hy Hnd]. intros Hin.
    apply elem_of_cons in Hin as [-> | Hin].
    + apply Hy. by eapply list_elem_of_lookup_2.
    + by apply (IH i Hnd Hi).
Qed.

Lemma deleteZone_drawnItems (zid : nat) (s : app) (i r : nat) :
  list_find (hasId s zid) (drawingZones s) = Some (i, r) ->
  drawnItems (deleteZone zid s) = drawnItems s ∖ {[layer (zoneObjs s r)]}.
Proof.
  intros Hfind. unfold deleteZone. rewrite Hfind. simpl.
  destruct (selectedZone s) as [sel |] eqn:Hsel; simpl.
  - case_decide; simpl; destruct (delete i (drawingZones s)); simpl;
      rewrite ?Hsel; reflexivity.
  - rewrite Hsel. destruct (delete i (drawingZones s)); reflexivity.
Qed.

(** X1.  [deleteZone] with the id of a zone of the store (ids unique, no
    reference twice in the list) removes exactly that zone: it is no
    longer in the list, the list is one shorter, every other zone stays,
    the zone objects and the counter are untouched, and the zone's layer
    is taken off the drawn items. *)
Theorem X1_deleteZone_removes_exactly_that_zone (s : app) (r : nat)
    (Hin : r ∈ drawingZones s)
    (Huniq : uniqueIds s)
    (Hnodup : NoDup (drawingZones s)) :
  let s' := deleteZone (id (zoneObjs s r)) s in
  (r ∉ drawingZones s') /\
  S (length (drawingZones s')) = length (drawingZones s) /\
  (forall r', r' <> r -> (r' ∈ drawingZones s' <-> r' ∈ drawingZones s)) /\
  zoneObjs s' = zoneObjs s /\
  layerObjs s' = layerObjs s /\
  zoneCounter s' = zoneCounter s /\
  (layer (zoneObjs s r) ∉ drawnItems s').
Proof.
  destruct (find_by_id s r Hin Huniq) as [i Hfind].
  destruct (deleteZone_found _ _ _ _ Hfind) as (Hz & Hobj & _ & Hlay & Hcnt).
  pose proof Hfind as Hfind'.
  apply list_find_Some in Hfind' as (Hi & _ & _).
  simpl. rewrite Hz. repeat split; try done.
  - by apply not_elem_of_delete.
  - rewrite length_delete by (by exists r).
    apply lookup_lt_Some in Hi. lia.
  - apply elem_of_delete_inv.
  - intros Hr'. by eapply elem_of_delete_other.
  - rewrite (deleteZone_drawnItems _ _ _ _ Hfind). intros Hl.
    apply elem_of_difference in Hl as [_ Hl]. apply Hl.
    by apply elem_of_singleton.
Qed.

(** X2.  [deleteZone] with an id that no zone of the store has leaves the
    whole state as it is. *)
Theorem X2_deleteZone_unknown_id_is_noop (zid : nat) (s : app)
    (Hunknown : forall r, r ∈ drawingZones s -> id (zoneObjs s r) <> zid) :
  deleteZone zid s = s.
Proof. by apply deleteZone_unknown_id. Qed.

(** X3.  After [deleteZone] of a zone of the store (ids unique): if that
    zone was the selected one, the selection is the first remaining zone,
    or none when the store is now empty; if another zone of the store was
    selected, it stays selected; if nothing was selected, the first
    remaining zone gets selected. *)
Theorem X3_deleteZone_selection_fallback (s : app) (r : nat)
    (Hin : r ∈ drawingZones s)
    (Huniq : uniqueIds s) :
  let s' := deleteZone (id (zoneObjs s r)) s in
  (selectedZone s = Some r -> selectedZone s' = head (drawingZones s')) /\
  (forall r', selectedZone s = Some r' -> r' ∈ drawingZones s -> r' <> r ->
     selectedZone s' = Some r' /\ r' ∈ drawingZones s') /\
  (selectedZone s = None -> selectedZone s' = head (drawingZones s')).
Proof.
  destruct (find_by_id s r Hin Huniq) as [i Hfind].
  destruct (deleteZone_found _ _ _ _ Hfind) as (Hz & _ & Hs & _).
  pose proof Hfind as Hfind'.
  apply list_find_Some in Hfind' as (Hi & _ & _).
  simpl. rewrite Hs, Hz. split; [| split].
  - intros ->. by rewrite decide_True.
  - intros r' -> Hr' Hne. rewrite decide_False.
    + split; [done |]. by eapply elem_of_delete_other.
    + intros Hid. apply Hne. by apply Huniq.
  - by intros ->.
Qed.

(* ===================================================================== *)
(** ** Further properties of the zone store: sequences *)
(* ===================================================================== *)

Lemma distinctZones_onDrawCreated (l : nat) (ty : layerType) (s : app) :
  idsFromCounter s -> distinctZones s -> distinctZones (onDrawCreated l ty s).
Proof.
  intros Hids [Hnd Hpos]. split; simpl.
  - apply NoDup_app. split; [done |]. split; [| apply NoDup_singleton].
    intros r Hr Hr'. apply list_elem_of_singleton in Hr'.
    destruct (Hids r Hr) as [Hle _]. lia.
  - intros r Hr. apply elem_of_app in Hr as [Hr | Hr]; [by apply Hpos |].
    apply list_elem_of_singleton in Hr. lia.
Qed.

Lemma distinctZones_deleteZone (zid : nat) (s : app) :
  distinctZones s -> distinctZones (deleteZone zid s).
Proof.
  intros [Hnd Hpos].
  destruct (list_find (hasId s zid) (drawingZones s)) as [[i r] |] eqn:Hfind.
  - destruct (deleteZone_found _ _ _ _ Hfind) as (Hz & _).
    split; rewrite Hz.
    + by apply NoDup_delete.
    + intros r' Hr'. apply Hpos. by apply elem_of_delete_inv in Hr'.
  - unfold deleteZone. rewrite Hfind. by split.
Qed.

Lemma zoneCounter_deleteZone (zid : nat) (s : app) :
  zoneCounter (deleteZone zid s) = zoneCounter s.
Proof.
  destruct (list_find (hasId s zid) (drawingZones s)) as [[i r] |] eqn:Hfind.
  - by destruct (deleteZone_found _ _ _ _ Hfind) as (_ & _ & _ & _ & Hcnt).
  - unfold deleteZone. by rewrite Hfind.
Qed.

Lemma zoneCounter_runOps (ops : list storeOp) (p : page) :
  zoneCounter (appOf (runOps ops p)) = (zoneCounter (appOf p) + countCreates ops)%nat.
Proof.
  revert p. induction ops as [| [l ty | | zid] ops IH]; intros p.
  - simpl. lia.
  - change (runOps (OpCreate l ty :: ops) p) with (runOps ops (applyOp p (OpCreate l ty))).
    rewrite IH. simpl. lia.
  - change (runOps (OpTimer :: ops) p) with (runOps ops (applyOp p OpTimer)).
    rewrite IH. simpl. by destruct (pendingAutoSelect p).
  - change (runOps (OpDelete zid :: ops) p) with (runOps ops (applyOp p (OpDelete zid))).
    rewrite IH. simpl. by rewrite zoneCounter_deleteZone.
Qed.

Lemma distinctZones_runOps (ops : list storeOp) (p : page) :
  storeInv (appOf p) -> distinctZones (appOf p) -> distinctZones (appOf (runOps ops p)).
Proof.
  revert p. induction ops as [| o ops IH]; intros p Hinv Hd; [exact Hd |].
  simpl. apply IH; [by apply storeInv_applyOp |].
  destruct o as [l ty | | zid]; simpl.
  - apply distinctZones_onDrawCreated; [by destruct Hinv | done].
  - by destruct (pendingAutoSelect p).
  - by apply distinctZones_deleteZone.
Qed.

Lemma deletedBeforeTimers_selects_deleted_zone :
  let s := appOf (runOps deletedBeforeTimers (load exampleLayers exampleZones)) in
  drawingZones s = [] /\ selectedZone s = Some 2%nat.
Proof. split; vm_compute; reflexivity. Qed.

(** X4.  Whatever sequence of zone creations, auto-select callbacks and
    [deleteZone] calls is run from the initial state, in any order: the
    counter is the number of creations so far, every zone of the store has
    an id between 1 and the counter (so a new zone always gets an id that
    was never used, also after deletions), ids are unique, no zone is
    listed twice, and every stored area is the area of the zone's current
    geometry.  The selection is a zone of the store as long as no zone is
    deleted while a callback is pending; otherwise it need not be: after
    two creations, two deletions and then the two callbacks, the store is
    empty and the second zone is selected. *)
Theorem X4_store_invariants_after_any_sequence (ops : list storeOp)
    (ls : nat -> layerObj) (zs : nat -> zoneData) :
  let s := appOf (runOps ops (load ls zs)) in
  zoneCounter s = countCreates ops /\
  (forall r, r ∈ drawingZones s ->
     (1 <= id (zoneObjs s r) <= zoneCounter s)%nat) /\
  uniqueIds s /\
  NoDup (drawingZones s) /\
  areaInSync s /\
  (quiet ops 0 = true -> selectionInStore s) /\
  (let bad := appOf (runOps deletedBeforeTimers (load exampleLayers exampleZones)) in
   drawingZones bad = [] /\ selectedZone bad = Some 2%nat).
Proof.
  pose proof (storeInv_runOps ops (load ls zs) (storeInv_init ls zs))
    as (Hids & Hsync).
  assert (Hd0 : distinctZones (appOf (load ls zs))).
  { split; [apply NoDup_nil_2 |]. intros r Hr. by apply elem_of_nil in Hr. }
  pose proof (distinctZones_runOps ops (load ls zs) (storeInv_init ls zs) Hd0)
    as [Hnd Hpos].
  destruct (runOps_from_load ops ls zs) as (_ & _ & Hsel).
  cbv zeta. split; [by rewrite zoneCounter_runOps |].
  split.
  { intros r Hr. destruct (Hids r Hr) as [Hle Hid]. rewrite Hid.
    split; [by apply Hpos | exact Hle]. }
  split; [by apply idsFromCounter_uniqueIds |].
  split; [exact Hnd |]. split; [exact Hsync |]. split; [exact Hsel |].
  exact deletedBeforeTimers_selects_deleted_zone.
Qed.

(* ===================================================================== *)
(** ** Further properties of the zone store: creation and map deletion *)
(* ===================================================================== *)

Lemma foldl_ext_in {A B} (f g : B -> A -> B) (l : list A) (b : B) :
  (forall acc x, x ∈ l -> f acc x = g acc x) -> foldl f b l = foldl g b l.
Proof.
  revert b. induction l as [| x l IH]; intros b H; simpl; [done |].
  rewrite H by (apply elem_of_cons; by left).
  apply IH. intros acc y Hy. apply H. apply elem_of_cons. by right.
Qed.

(** X5.  In a store whose references are bounded by the counter, a
    [draw:created] event on layer [l] adds to the totals of
    [updateZoneAnalysis] exactly one zone, the area of that layer, 25
    panels, 10 kW and the annual output of a 25 x 400 W zone at ratio
    0.85; the contributions of the existing zones are unchanged, and the
    auto-select callback does not change the totals. *)
Theorem X5_onDrawCreated_adds_to_totals (l : nat) (ty : layerType) (s : app)
    (Hids : idsFromCounter s) :
  let t := computeTotals s in
  let s' := onDrawCreated l ty s in
  let t' := computeTotals s' in
  let z := mkZone (S (zoneCounter s)) l ty (calculateArea (layerObjs s l))
                  (int 25) (int 400) (Fin (dec 85 100)) in
  computeTotals (onDrawCreated_autoSelect (S (zoneCounter s)) s') = t' /\
  zoneObjs s' (S (zoneCounter s)) = z /\
  Totals.zones t' = int (Z.of_nat (S (length (drawingZones s)))) /\
  Totals.totalArea t' = add (Totals.totalArea t) (calculateArea (layerObjs s l)) /\
  Totals.totalPanels t' = add (Totals.totalPanels t) (int 25) /\
  Totals.totalPower t' = add (Totals.totalPower t) (int 10) /\
  Totals.totalAnnualOutput t'
    = add (Totals.totalAnnualOutput t) (calculateEnergyOutput (sunlightData s) z).
Proof.
  intros t s' t' z.
  split; [reflexivity |].
  assert (Hnew : zoneObjs s' (S (zoneCounter s)) = z)
    by (unfold s'; simpl; by rewrite fn_lookup_insert).
  assert (Hold : forall r, r ∈ drawingZones s -> zoneObjs s' r = zoneObjs s r).
  { intros r Hr. unfold s'. simpl. apply fn_lookup_insert_ne.
    destruct (Hids r Hr) as [Hle _]. lia. }
  assert (Hpower : div (mul (int 25) (int 400)) (int 1000) = int 10) by num_eq.
  assert (Hfold : foldl (accumulateZone s') (int 0, int 0, int 0, int 0) (drawingZones s)
                  = foldl (accumulateZone s) (int 0, int 0, int 0, int 0) (drawingZones s)).
  { apply foldl_ext_in. intros acc r Hr. unfold accumulateZone.
    by rewrite (Hold r Hr). }
  split; [exact Hnew |].
  unfold t', t, computeTotals.
  change (drawingZones s') with (drawingZones s ++ [S (zoneCounter s)]).
  rewrite foldl_app, Hfold.
  destruct (foldl (accumulateZone s) (int 0, int 0, int 0, int 0) (drawingZones s))
    as [[[a p] w] o].
  cbn [foldl]. unfold accumulateZone. rewrite Hnew.
  unfold z. cbn [area panelCount panelWattage efficiency].
  rewrite Hpower, length_app.
  cbn [Totals.zones Totals.totalArea Totals.totalPanels Totals.totalPower
       Totals.totalAnnualOutput length].
  repeat split. do 2 f_equal. lia.
Qed.

Lemma filter_all {A} (P : A -> Prop) `{forall x, Decision (P x)} (l : list A) :
  (forall x, x ∈ l -> P x) -> filter P l = l.
Proof.
  induction l as [| x l IH]; intros HP; [done |].
  rewrite filter_cons_True by (apply HP, elem_of_cons; by left).
  f_equal. apply IH. intros y Hy. apply HP, elem_of_cons. by right.
Qed.

Lemma set_drawingZones_same (s : app) : set_drawingZones (drawingZones s) s = s.
Proof. by destruct s. Qed.

Lemma onDrawDeleted_from (ls : list nat) (s : app) (zs : list nat) :
  foldl onDrawDeleted_layer (set_drawingZones zs s) ls
  = set_drawingZones (filter (fun r => layer (zoneObjs s r) ∉ ls) zs) s.
Proof.
  revert zs. induction ls as [| l ls IH]; intros zs; simpl.
  - f_equal. symmetry. apply filter_all. intros r _. apply not_elem_of_nil.
  - change (onDrawDeleted_layer (set_drawingZones zs s) l)
      with (set_drawingZones (filter (fun r => ~ hasLayer s l r) zs) s).
    rewrite IH. f_equal. rewrite list_filter_filter.
    apply list_filter_iff. intros r. unfold hasLayer.
    rewrite not_elem_of_cons. split.
    + intros [Hls Hl]. split; [| exact Hls]. intros E. by apply Hl.
    + intros [Hl Hls]. split; [exact Hls |]. intros E. by apply Hl.
Qed.

(** X6.  [onDrawDeleted] for the layers [ls] keeps, in order, exactly
    the zones whose layer is not among [ls], and changes nothing else:
    the zone objects, the selection, the edit session and the counter are
    as before (so layers that belong to no zone change nothing at
    all). *)
Theorem X6_onDrawDeleted_filters_by_layer (ls : list nat) (s : app) :
  onDrawDeleted ls s
  = set_drawingZones (filter (fun r => layer (zoneObjs s r) ∉ ls) (drawingZones s)) s /\
  (forall r, r ∈ drawingZones (onDrawDeleted ls s)
             <-> r ∈ drawingZones s /\ layer (zoneObjs s r) ∉ ls) /\
  selectedZone (onDrawDeleted ls s) = selectedZone s /\
  currentEditingZone (onDrawDeleted ls s) = currentEditingZone s /\
  ((forall r, r ∈ drawingZones s -> layer (zoneObjs s r) ∉ ls) ->
   onDrawDeleted ls s = s).
Proof.
  assert (H : onDrawDeleted ls s
              = set_drawingZones
                  (filter (fun r => layer (zoneObjs s r) ∉ ls) (drawingZones s)) s).
  { unfold onDrawDeleted. rewrite <- (set_drawingZones_same s) at 1.
    apply onDrawDeleted_from. }
  rewrite H. simpl. split; [done |]. split; [| split; [done | split; [done |]]].
  - intros r. rewrite list_elem_of_filter. tauto.
  - intros Hnone. rewrite filter_all by exact Hnone.
    apply set_drawingZones_same.
Qed.

(* ===================================================================== *)
(** ** Further properties of the zone store: edits *)
(* ===================================================================== *)

Lemma set_zoneObjs_same (s : app) : set_zoneObjs (zoneObjs s) s = s.
Proof. by destruct s. Qed.

Lemma set_zoneObjs_absorb (f g : nat -> zoneData) (s1 s : app) :
  s1 = set_zoneObjs g s -> set_zoneObjs f s1 = set_zoneObjs f s.
Proof. by intros ->. Qed.

(** One round of [onDrawEdited]: only the zone found for the layer
    changes, in its area and panel count. *)
Lemma onDrawEdited_layer_step (s : app) (l : nat) :
  let s' := onDrawEdited_layer s l in
  s' = set_zoneObjs (zoneObjs s') s /\
  (forall r, sameIdentity (zoneObjs s r) (zoneObjs s' r)) /\
  (forall i r0, list_find (hasLayer s l) (drawingZones s) = Some (i, r0) ->
     area (zoneObjs s' r0) = calculateArea (layerObjs s l) /\
     panelCount (zoneObjs s' r0) = int 25 /\
     forall r, r <> r0 -> zoneObjs s' r = zoneObjs s r) /\
  (list_find (hasLayer s l) (drawingZones s) = None -> s' = s).
Proof.
  unfold onDrawEdited_layer.
  destruct (list_find (hasLayer s l) (drawingZones s)) as [[i r0] |]; simpl.
  - split; [done |]. split; [| split; [| done]].
    + intros r. destruct (decide (r0 = r)) as [<- | Hne].
      * by rewrite fn_lookup_insert.
      * by rewrite fn_lookup_insert_ne.
    + intros i' r' [= <- <-]. rewrite fn_lookup_insert. simpl.
      repeat split. intros r Hr. by rewrite fn_lookup_insert_ne.
  - split; [by rewrite set_zoneObjs_same |]. split; [done |]. split; done.
Qed.

(** [onDrawEdited] never changes anything but zone objects, and of those
    only areas and panel counts. *)
Lemma onDrawEdited_frame (ls : list nat) (s : app) :
  let s' := onDrawEdited ls s in
  s' = set_zoneObjs (zoneObjs s') s /\
  forall r, sameIdentity (zoneObjs s r) (zoneObjs s' r).
Proof.
  revert s. induction ls as [| l ls IH]; intros s.
  - simpl. split; [by rewrite set_zoneObjs_same | done].
  - change (onDrawEdited (l :: ls) s) with (onDrawEdited ls (onDrawEdited_layer s l)).
    destruct (onDrawEdited_layer_step s l) as (Hs1 & Hid1 & _).
    destruct (IH (onDrawEdited_layer s l)) as (Hs' & Hid').
    simpl. split.
    + etrans; [exact Hs' |]. by eapply set_zoneObjs_absorb.
    + intros r. destruct (Hid1 r) as (A1 & A2 & A3 & A4 & A5).
      destruct (Hid' r) as (B1 & B2 & B3 & B4 & B5).
      repeat split; congruence.
Qed.

Lemma uniqueLayers_frame (s s' : app) :
  drawingZones s' = drawingZones s ->
  (forall r, layer (zoneObjs s' r) = layer (zoneObjs s r)) ->
  uniqueLayers s -> uniqueLayers s'.
Proof.
  intros Hz Hl Hu r r' Hr Hr' E. rewrite Hz in Hr, Hr'. rewrite !Hl in E.
  by apply Hu.
Qed.

Lemma onDrawEdited_zones (ls : list nat) (s : app) :
  uniqueLayers s ->
  let s' := onDrawEdited ls s in
  (forall r, r ∈ drawingZones s -> layer (zoneObjs s r) ∈ ls ->
     area (zoneObjs s' r) = calculateArea (layerObjs s (layer (zoneObjs s r))) /\
     panelCount (zoneObjs s' r) = int 25) /\
  (forall r, r ∈ drawingZones s -> layer (zoneObjs s r) ∉ ls ->
     zoneObjs s' r = zoneObjs s r) /\
  (forall r, r ∉ drawingZones s -> zoneObjs s' r = zoneObjs s r).
Proof.
  revert s. induction ls as [| l ls IH]; intros s Hu.
  - simpl. split; [| done]. intros r _ Hr. by apply elem_of_nil in Hr.
  - change (onDrawEdited (l :: ls) s) with (onDrawEdited ls (onDrawEdited_layer s l)).
    set (s1 := onDrawEdited_layer s l).
    destruct (onDrawEdited_layer_step s l) as (Hs1 & Hid1 & Hfound & Hnone).
    fold s1 in Hs1, Hid1, Hfound, Hnone.
    assert (Hz1 : drawingZones s1 = drawingZones s) by (by rewrite Hs1).
    assert (Hl1 : layerObjs s1 = layerObjs s) by (by rewrite Hs1).
    assert (Hlay1 : forall r, layer (zoneObjs s1 r) = layer (zoneObjs s r))
      by (intros r; by destruct (Hid1 r) as (_ & ? & _)).
    assert (Hu1 : uniqueLayers s1) by (by eapply uniqueLayers_frame).
    destruct (IH s1 Hu1) as (Hin & Hout & Hother). simpl.
    assert (Hstep : forall r, r ∈ drawingZones s ->
              (layer (zoneObjs s r) = l ->
                 area (zoneObjs s1 r) = calculateArea (layerObjs s l) /\
                 panelCount (zoneObjs s1 r) = int 25) /\
              (layer (zoneObjs s r) <> l -> zoneObjs s1 r = zoneObjs s r)).
    { intros r Hr.
      destruct (list_find (hasLayer s l) (drawingZones s)) as [[i r0] |] eqn:Hfind.
      - destruct (Hfound i r0 eq_refl) as (Ha & Hp & Hrest).
        pose proof Hfind as Hfind'.
        apply list_find_Some in Hfind' as (Hi & Hr0 & _).
        split.
        + intros E. assert (r = r0) as ->; [| done].
          apply Hu; [done | by eapply list_elem_of_lookup_2 |].
          by rewrite E, Hr0.
        + intros Hne. apply Hrest. intros ->. by apply Hne.
      - rewrite (Hnone eq_refl). split; [| done].
        intros E. apply list_find_None in Hfind.
        rewrite Forall_forall in Hfind. by destruct (Hfind r Hr). }
    split; [| split].
    + intros r Hr Hl.
      destruct (decide (layer (zoneObjs s r) ∈ ls)) as [Hls | Hls].
      * rewrite <- Hz1 in Hr. rewrite <- Hlay1 in Hls.
        destruct (Hin r Hr Hls) as [Ha Hp].
        by rewrite Ha, Hp, Hl1, Hlay1.
      * apply elem_of_cons in Hl as [Hl | Hl]; [| done].
        rewrite Hout by (by rewrite ?Hz1, ?Hlay1).
        rewrite Hl. by apply (Hstep r Hr).
    + intros r Hr Hl. apply not_elem_of_cons in Hl as [Hne Hls].
      rewrite Hout by (by rewrite ?Hz1, ?Hlay1).
      by apply (Hstep r Hr).
    + intros r Hr. rewrite Hother by (by rewrite Hz1).
      destruct (list_find (hasLayer s l) (drawingZones s)) as [[i r0] |] eqn:Hfind.
      * destruct (Hfound i r0 eq_refl) as (_ & _ & Hrest). apply Hrest.
        intros ->. apply Hr.
        apply list_find_Some in Hfind as (Hi & _). by eapply list_elem_of_lookup_2.
      * by rewrite (Hnone eq_refl).
Qed.

(** X7.  [onDrawEdited] for any list of layers, in a store where no layer
    is shared: every zone of the store on one of these layers ends with
    the area of its layer's current geometry and with 25 panels; every
    other zone object (in the store or not) is untouched; ids, layers,
    wattage and ratio of all zones, the zone list, the layers, the
    selection and the edit session stay as they are. *)
Theorem X7_onDrawEdited_updates_edited_layers_only (ls : list nat) (s : app)
    (Huniq : uniqueLayers s) :
  let s' := onDrawEdited ls s in
  s' = set_zoneObjs (zoneObjs s') s /\
  (forall r, sameIdentity (zoneObjs s r) (zoneObjs s' r)) /\
  (forall r, r ∈ drawingZones s -> layer (zoneObjs s r) ∈ ls ->
     area (zoneObjs s' r) = calculateArea (layerObjs s' (layer (zoneObjs s' r))) /\
     panelCount (zoneObjs s' r) = int 25) /\
  (forall r, r ∈ drawingZones s -> layer (zoneObjs s r) ∉ ls ->
     zoneObjs s' r = zoneObjs s r) /\
  (forall r, r ∉ drawingZones s -> zoneObjs s' r = zoneObjs s r).
Proof.
  destruct (onDrawEdited_frame ls s) as (Hs' & Hid).
  destruct (onDrawEdited_zones ls s Huniq) as (Hin & Hout & Hother).
  simpl. split; [exact Hs' |]. split; [exact Hid |].
  split; [| split; [exact Hout | exact Hother]].
  intros r Hr Hl. destruct (Hin r Hr Hl) as [Ha Hp].
  destruct (Hid r) as (_ & Hlay & _).
  split; [| exact Hp]. rewrite Ha, Hlay. by rewrite Hs'.
Qed.

Lemma mutateGeometry_last (l : nat) (gs : list (list (list LatLng))) (s : app) :
  latLngs (layerObjs (mutateGeometry l gs s) l)
  = default (latLngs (layerObjs s l)) (last gs).
Proof.
  revert s. induction gs as [| g gs IH]; intros s; [done |].
  change (mutateGeometry l (g :: gs) s) with (mutateGeometry l gs (setLatLngs l g s)).
  rewrite IH. simpl. rewrite fn_lookup_insert. simpl.
  destruct gs as [| g' gs]; [done |].
  change (last (g :: g' :: gs)) with (last (g' :: gs)).
  destruct (last (g' :: gs)) eqn:E; [done |].
  by apply last_None in E.
Qed.

Lemma mutateGeometry_selectedZone (l : nat) (gs : list (list (list LatLng))) (s : app) :
  selectedZone (mutateGeometry l gs s) = selectedZone s.
Proof.
  revert s. induction gs as [| g gs IH]; intros s; [done |].
  change (mutateGeometry l (g :: gs) s) with (mutateGeometry l gs (setLatLngs l g s)).
  by rewrite IH.
Qed.

(** X8.  Starting an edit on a zone of the store, dragging its geometry
    through any sequence of shapes and then saving keeps the last shape in
    the layer, makes the zone's area the area of that shape, keeps the
    zone's id, layer, wattage and ratio, leaves the zone list and the
    selection alone, and discards the session.  This holds whatever
    layers the [draw:edited] event of the save reports. *)
Theorem X8_saveZoneEdit_commits_current_geometry (s : app) (r : nat)
    (gs : list (list (list LatLng))) (edited : list nat)
    (Hin : r ∈ drawingZones s)
    (Huniq : uniqueIds s) :
  let l := layer (zoneObjs s r) in
  let s3 := saveZoneEdit edited (mutateGeometry l gs (editZone (id (zoneObjs s r)) s)) in
  latLngs (layerObjs s3 l) = default (latLngs (layerObjs s l)) (last gs) /\
  area (zoneObjs s3 r) = calculateArea (layerObjs s3 l) /\
  sameIdentity (zoneObjs s r) (zoneObjs s3 r) /\
  drawingZones s3 = drawingZones s /\
  selectedZone s3 = selectedZone s /\
  originalGeometry s3 = None /\
  currentEditingZone s3 = None /\
  currentEditHandler s3 = None.
Proof.
  intros l s3. unfold s3. rewrite (editZone_found s r Hin Huniq). fold l.
  set (s1 := set_currentEditHandler (Some (mkHandler [l]))
               (set_currentEditingZone (Some r)
                  (set_originalGeometry (Some (toGeoJSON (layerObjs s l))) s))).
  set (s2 := mutateGeometry l gs s1).
  destruct (mutateGeometry_frame l gs s1) as (Mz & Md & _ & _ & Me & Mh & _ & _).
  fold s2 in Mz, Md, Me, Mh.
  change (zoneObjs s1) with (zoneObjs s) in Mz.
  change (drawingZones s1) with (drawingZones s) in Md.
  change (currentEditingZone s1) with (Some r) in Me.
  change (currentEditHandler s1) with (Some (mkHandler [l])) in Mh.
  pose proof (mutateGeometry_last l gs s1) as Mlast. fold s2 in Mlast.
  change (layerObjs s1 l) with (layerObjs s l) in Mlast.
  pose proof (mutateGeometry_selectedZone l gs s1) as Msel. fold s2 in Msel.
  change (selectedZone s1) with (selectedZone s) in Msel.
  set (s' := onDrawEdited edited s2).
  destruct (onDrawEdited_frame edited s2) as (Hs' & Hid). fold s' in Hs', Hid.
  assert (He' : currentEditingZone s' = Some r) by (by rewrite Hs').
  assert (Hl' : layerObjs s' = layerObjs s2) by (by rewrite Hs').
  assert (Hz' : drawingZones s' = drawingZones s) by (by rewrite Hs').
  assert (Hsel' : selectedZone s' = selectedZone s) by (by rewrite Hs').
  assert (Hident : sameIdentity (zoneObjs s r) (zoneObjs s' r))
    by (rewrite <- Mz; apply Hid).
  assert (Hs3 : saveZoneEdit edited s2 = hideEditActions
            (set_zoneObjs
               (<[r := with_area (calculateArea (layerObjs s2 l)) (zoneObjs s' r)]> (zoneObjs s'))
               (set_currentEditHandler None s'))).
  { unfold saveZoneEdit. rewrite Mh. cbv zeta. fold s'.
    change (currentEditingZone (set_currentEditHandler None s'))
      with (currentEditingZone s').
    rewrite He'.
    change (zoneObjs (set_currentEditHandler None s')) with (zoneObjs s').
    change (layerObjs (set_currentEditHandler None s')) with (layerObjs s').
    rewrite Hl'. destruct Hident as (_ & Hlay & _). rewrite Hlay. reflexivity. }
  rewrite Hs3. simpl. rewrite fn_lookup_insert, Hl'.
  split; [exact Mlast |]. split; [done |].
  split; [| by repeat split]. destruct Hident as (A1 & A2 & A3 & A4 & A5).
  by repeat split.
Qed.

(** X9.  Cancelling or saving twice is the same as doing it once, and a
    cancel after a save changes nothing: once an edit session has been
    ended there is no edit handler left, and both [cancelZoneEdit] and
    [saveZoneEdit] do nothing without one. *)
Theorem X9_cancel_and_save_are_idempotent (s : app) (edited edited' : list nat) :
  cancelZoneEdit (cancelZoneEdit s) = cancelZoneEdit s /\
  saveZoneEdit edited' (saveZoneEdit edited s) = saveZoneEdit edited s /\
  cancelZoneEdit (saveZoneEdit edited s) = saveZoneEdit edited s /\
  cancelZoneEdit (set_currentEditHandler None s) = set_currentEditHandler None s /\
  saveZoneEdit edited (set_currentEditHandler None s) = set_currentEditHandler None s.
Proof.
  assert (Hsave : currentEditHandler (saveZoneEdit edited s) = None).
  { unfold saveZoneEdit. destruct (currentEditHandler s) eqn:Hh; [| exact Hh].
    simpl. by destruct (currentEditingZone (onDrawEdited edited s)). }
  split; [| split; [| split; [| split]]].
  - unfold cancelZoneEdit at 2 3.
    destruct (currentEditHandler s) as [h |] eqn:Hh;
      [destruct (currentEditingZone s) as [r |] eqn:He;
         [destruct (originalGeometry s) as [g |] eqn:Hg |] |].
    + reflexivity.
    + unfold cancelZoneEdit. by rewrite Hh, He, Hg.
    + unfold cancelZoneEdit. by rewrite Hh, He.
    + unfold cancelZoneEdit. by rewrite Hh.
  - unfold saveZoneEdit at 1. by rewrite Hsave.
  - unfold cancelZoneEdit. by rewrite Hsave.
  - reflexivity.
  - reflexivity.
Qed.

(** [deleteZone] does not look at the edit session. *)
Lemma deleteZone_session (zid : nat) (s : app) :
  originalGeometry (deleteZone zid s) = originalGeometry s /\
  currentEditingZone (deleteZone zid s) = currentEditingZone s /\
  currentEditHandler (deleteZone zid s) = currentEditHandler s.
Proof.
  unfold deleteZone.
  destruct (list_find (hasId s zid) (drawingZones s)) as [[i r] |]; [| done].
  simpl. destruct (selectedZone s) as [sel |] eqn:Hsel; simpl.
  - case_decide; simpl; destruct (delete i (drawingZones s)); simpl;
      rewrite ?Hsel; done.
  - rewrite Hsel. by destruct (delete i (drawingZones s)).
Qed.

(** X10.  Deleting the zone that is being edited does not end the edit
    session: the zone leaves the store and its layer leaves the drawn
    items, but the editing-zone reference, the snapshot and the handler
    stay.  A cancel that follows then ends the session and puts the layer
    of the deleted zone back among the drawn items, although the zone is
    no longer in the store. *)
Theorem X10_cancel_after_deleting_the_edited_zone (s : app) (r : nat)
    (Hin : r ∈ drawingZones s)
    (Huniq : uniqueIds s)
    (Hnodup : NoDup (drawingZones s)) :
  let l := layer (zoneObjs s r) in
  let s2 := deleteZone (id (zoneObjs s r)) (editZone (id (zoneObjs s r)) s) in
  let s3 := cancelZoneEdit s2 in
  (r ∉ drawingZones s2) /\
  (l ∉ drawnItems s2) /\
  currentEditingZone s2 = Some r /\
  drawingZones s3 = drawingZones s2 /\
  (l ∈ drawnItems s3) /\
  currentEditingZone s3 = None /\
  currentEditHandler s3 = None.
Proof.
  intros l s2 s3. unfold s3, s2. rewrite (editZone_found s r Hin Huniq). fold l.
  set (s1 := set_currentEditHandler (Some (mkHandler [l]))
               (set_currentEditingZone (Some r)
                  (set_originalGeometry (Some (toGeoJSON (layerObjs s l))) s))).
  destruct (find_by_id s r Hin Huniq) as [i Hfind].
  change (list_find (hasId s (id (zoneObjs s r))) (drawingZones s))
    with (list_find (hasId s1 (id (zoneObjs s r))) (drawingZones s1)) in Hfind.
  destruct (deleteZone_found _ _ _ _ Hfind) as (Hz & Hobj & _ & Hlay & _).
  pose proof (deleteZone_drawnItems _ _ _ _ Hfind) as Hd.
  destruct (deleteZone_session (id (zoneObjs s r)) s1) as (Hg & He & Hh).
  set (s2' := deleteZone (id (zoneObjs s r)) s1) in *.
  change (drawingZones s1) with (drawingZones s) in Hz.
  change (zoneObjs s1) with (zoneObjs s) in Hobj, Hd.
  change (drawnItems s1) with (drawnItems s) in Hd.
  change (originalGeometry s1) with (Some (toGeoJSON (layerObjs s l))) in Hg.
  change (currentEditingZone s1) with (Some r) in He.
  change (currentEditHandler s1) with (Some (mkHandler [l])) in Hh.
  fold l in Hd.
  pose proof Hfind as Hfind'. apply list_find_Some in Hfind' as (Hi & _ & _).
  change (drawingZones s1) with (drawingZones s) in Hi.
  split; [rewrite Hz; by apply not_elem_of_delete |].
  split.
  { rewrite Hd. intros Hl. apply elem_of_difference in Hl as [_ Hl].
    apply Hl. by apply elem_of_singleton. }
  split; [exact He |].
  unfold cancelZoneEdit. rewrite Hh, He, Hg. simpl.
  rewrite Hobj. fold l. repeat split.
  apply elem_of_union. left. by apply elem_of_singleton.
Qed.

(* ===================================================================== *)
(** ** Further properties of the metrics *)
(* ===================================================================== *)




Lemma Qc_of_Z_pos (n : Z) : (0 < n)%Z -> (0 < Qc_of_Z n)%Qc.
Proof. intros Hn. rewrite <- Z2Qc_inj_0. by refine (proj1 (Z2Qc_inj_lt _ _) _). Qed.

Lemma Qc_of_Z_nonneg (n : Z) : (0 <= n)%Z -> (0 <= Qc_of_Z n)%Qc.
Proof. intros Hn. rewrite <- Z2Qc_inj_0. by refine (proj1 (Z2Qc_inj_le _ _) _). Qed.

Lemma Qc_pos_nonzero (a : Qc) : (0 < a)%Qc -> a <> 0%Qc.
Proof. intros Ha ->. apply (Qclt_not_le _ _ Ha). apply Qcle_refl. Qed.

Lemma Qc_div_nonneg (a b : Qc) : (0 <= a)%Qc -> (0 < b)%Qc -> (0 <= a / b)%Qc.
Proof.
  intros Ha Hb. unfold Qcdiv. apply Qcmult_nonneg_nonneg; [done |].
  apply Qclt_le_weak. by apply Qcinv_pos.
Qed.

Lemma Qc_div_le_compat (a b c : Qc) : (a <= b)%Qc -> (0 < c)%Qc -> (a / c <= b / c)%Qc.
Proof.
  intros Hab Hc. unfold Qcdiv. apply Qcmult_le_compat_r; [done |].
  apply Qclt_le_weak. by apply Qcinv_pos.
Qed.


Lemma floor_half_nonneg (x : Qc) : (0 <= x)%Qc -> (0 <= Qfloor (x + half)%Qc)%Z.
Proof.
  intros Hx. rewrite <- (Qfloor_int_half 0) at 1. apply Qc_floor_mono.
  apply Qcplus_le_compat; [| apply Qcle_refl]. by rewrite Z2Qc_inj_0.
Qed.

Lemma floor_half_mono (x y : Qc) :
  (x <= y)%Qc -> (Qfloor (x + half)%Qc <= Qfloor (y + half)%Qc)%Z.
Proof.
  intros Hxy. apply Qc_floor_mono. apply Qcplus_le_compat; [done | apply Qcle_refl].
Qed.

Lemma floor_half_le_Z (x : Qc) (n : Z) :
  (x <= Qc_of_Z n)%Qc -> (Qfloor (x + half)%Qc <= n)%Z.
Proof.
  intros Hx. rewrite <- (Qfloor_int_half n). by apply floor_half_mono.
Qed.

(** For finite arguments and a non-zero size, the score is the whole
    number [scoreOf]. *)
Lemma calculateEfficiencyScore_Fin (annualOutput systemSize : Qc) :
  systemSize <> 0%Qc ->
  calculateEfficiencyScore (Fin annualOutput) (Fin systemSize)
  = int (scoreOf annualOutput systemSize).
Proof.
  intros Hs. unfold calculateEfficiencyScore, scoreOf. cbv zeta.
  rewrite (div_Fin _ _ Hs).
  unfold int at 1. rewrite div_Fin by (apply Qc_of_Z_nonzero; lia).
  unfold int at 1. rewrite mul_Fin.
  by rewrite Math_round_min_int, Math_round_Fin, Math_min_int.
Qed.

Lemma scoreOf_range (annualOutput systemSize : Qc) :
  (0 <= annualOutput)%Qc -> (0 < systemSize)%Qc ->
  (0 <= scoreOf annualOutput systemSize <= 100)%Z.
Proof.
  intros Ha Hs. unfold scoreOf.
  assert (H : (0 <= Qfloor (round64 (round64 (round64 (annualOutput / systemSize)
                                               / Qc_of_Z 1200) * Qc_of_Z 100) + half)%Qc)%Z).
  { apply floor_half_nonneg, round64_nonneg.
    apply Qcmult_nonneg_nonneg; [| apply Qc_of_Z_nonneg; lia].
    apply round64_nonneg. apply Qc_div_nonneg; [| apply Qc_of_Z_pos; lia].
    apply round64_nonneg. by apply Qc_div_nonneg. }
  lia.
Qed.

Lemma scoreOf_mono (annualOutput more systemSize : Qc) :
  (0 < systemSize)%Qc -> (annualOutput <= more)%Qc ->
  (scoreOf annualOutput systemSize <= scoreOf more systemSize)%Z.
Proof.
  intros Hs Hle. unfold scoreOf. apply Z.min_le_compat_l.
  apply floor_half_mono, round64_mono.
  apply Qcmult_le_compat_r; [| apply Qc_of_Z_nonneg; lia].
  apply round64_mono. apply Qc_div_le_compat; [| apply Qc_of_Z_pos; lia].
  apply round64_mono. by apply Qc_div_le_compat.
Qed.

(** X11.  For a finite output that is not negative and a finite positive
    system size, [calculateEfficiencyScore] returns a whole number between
    0 and 100, and a larger output never gives a smaller score.  The
    score is computed in doubles: 174 kWh from 1 kW gives 14, since
    [174 / 1200 * 100] evaluates to 14.499999999999998. *)
Theorem X11_efficiency_score_is_a_percentage (annualOutput systemSize : Qc)
    (Houtput : (0 <= annualOutput)%Qc)
    (Hsize : (0 < systemSize)%Qc) :
  exists k : Z,
    calculateEfficiencyScore (Fin annualOutput) (Fin systemSize) = int k /\
    (0 <= k <= 100)%Z /\
    (forall (more : Qc) (k' : Z), (annualOutput <= more)%Qc ->
       calculateEfficiencyScore (Fin more) (Fin systemSize) = int k' -> (k <= k')%Z) /\
    calculateEfficiencyScore (int 174) (int 1) = int 14.
Proof.
  assert (Hs0 : systemSize <> 0%Qc) by (by apply Qc_pos_nonzero).
  exists (scoreOf annualOutput systemSize).
  split; [by apply calculateEfficiencyScore_Fin |].
  split; [by apply scoreOf_range |].
  split; [| num_eq].
  intros more k' Hle Hk'. rewrite calculateEfficiencyScore_Fin in Hk' by done.
  apply int_inj in Hk'. subst k'. by apply scoreOf_mono.
Qed.





(* ===================================================================== *)
(** ** Further properties of the sunshine figures *)
(* ===================================================================== *)

Lemma Qc_closed_eq (a b : Qc) : (a ?= b)%Qc = Eq -> a = b.
Proof. intros H. by apply Qceq_alt. Qed.

(** A figure rounded to one decimal is a whole number of tenths. *)
Lemma tenths_Fin (x : Qc) :
  div (Math_round (Fin x)) (int 10)
  = Fin (round64 (Qc_of_Z (Qfloor (x + half)%Qc) / Qc_of_Z 10)).
Proof.
  rewrite Math_round_Fin. unfold int.
  apply div_Fin. apply Qc_of_Z_nonzero. lia.
Qed.

(** A finite daily average is a whole number of tenths. *)
Lemma calculateDailyAverage_tenths (hours : list (option num)) (d : Qc) :
  calculateDailyAverage hours = Fin d ->
  exists k : Z, calculateDailyAverage hours = div (int k) (int 10).
Proof.
  unfold calculateDailyAverage. cbv zeta.
  destruct (mul _ (int 10)) as [x | | |]; try discriminate.
  intros _. rewrite Math_round_Fin. by eexists.
Qed.

Lemma validHours_length (l : list (option num)) :
  (length (validHours l) <= length l)%nat.
Proof.
  unfold validHours. induction l as [| [v |] l IH]; cbn; lia.
Qed.

(** X14.  Whenever the daily average computed from a fetched series is a
    finite number that is not negative, every stored figure has at most
    one decimal: the daily, weekly and monthly figures are whole numbers
    of tenths and the yearly figure is a whole number; none is negative
    and the weekly figure is at most the monthly one.  The figures are
    rounded from products computed in doubles: a daily average of 0.7
    hours gives a yearly figure of 255, since [0.7 * 365] evaluates to
    255.49999999999997. *)
Theorem X14_stored_figures_have_one_decimal (sunshine : list (option num)) (d : Qc)
    (Hdaily : daily (fetchedSunlightData sunshine) = Fin d)
    (Hnonneg : (0 <= d)%Qc) :
  (exists k w m y : Z,
     daily (fetchedSunlightData sunshine) = div (int k) (int 10) /\
     weekly (fetchedSunlightData sunshine) = div (int w) (int 10) /\
     monthly (fetchedSunlightData sunshine) = div (int m) (int 10) /\
     yearly (fetchedSunlightData sunshine) = int y /\
     (0 <= w <= m)%Z /\ (0 <= y)%Z) /\
  daily (fetchedSunlightData [Some (int 2520)]) = Fin (dec 7 10) /\
  yearly (fetchedSunlightData [Some (int 2520)]) = int 255.
Proof.
  split; [| split; num_eq].
  change (calculateDailyAverage (processedHours sunshine) = Fin d) in Hdaily.
  destruct (calculateDailyAverage_tenths _ _ Hdaily) as [k Hk].
  assert (H7 : (0 <= round64 (round64 (d * Qc_of_Z 7) * Qc_of_Z 10))%Qc).
  { apply round64_nonneg, Qcmult_nonneg_nonneg; [| apply Qc_of_Z_nonneg; lia].
    apply round64_nonneg, Qcmult_nonneg_nonneg; [done | apply Qc_of_Z_nonneg; lia]. }
  assert (H365 : (0 <= round64 (d * Qc_of_Z 365))%Qc).
  { apply round64_nonneg, Qcmult_nonneg_nonneg; [done | apply Qc_of_Z_nonneg; lia]. }
  assert (Hle : (round64 (round64 (d * Qc_of_Z 7) * Qc_of_Z 10)
                 <= round64 (round64 (d * Qc_of_Z 30) * Qc_of_Z 10))%Qc).
  { apply round64_mono, Qcmult_le_compat_r; [| apply Qc_of_Z_nonneg; lia].
    apply round64_mono. rewrite !(Qcmult_comm d).
    apply Qcmult_le_compat_r; [| done].
    refine (proj1 (Z2Qc_inj_le _ _) _). lia. }
  exists k,
    (Qfloor (round64 (round64 (d * Qc_of_Z 7) * Qc_of_Z 10) + half)%Qc),
    (Qfloor (round64 (round64 (d * Qc_of_Z 30) * Qc_of_Z 10) + half)%Qc),
    (Qfloor (round64 (d * Qc_of_Z 365) + half)%Qc).
  split; [exact Hk |].
  unfold fetchedSunlightData. cbv zeta. cbn [weekly monthly yearly].
  unfold calculateWeeklyTotal, calculateMonthlyAverage, calculateYearlyEstimate.
  cbv zeta. rewrite Hdaily.
  split; [reflexivity |]. split; [reflexivity |]. split; [reflexivity |].
  split; [split |].
  - by apply floor_half_nonneg.
  - by apply floor_half_mono.
  - by apply floor_half_nonneg.
Qed.

Lemma validHours_processed_nulls (sunshine : list (option num)) :
  (forall x, x ∈ sunshine -> x = None) -> validHours (processedHours sunshine) = [].
Proof.
  induction sunshine as [| x l IH]; intros H; [done |].
  rewrite (H x) by (apply elem_of_cons; by left). simpl.
  apply IH. intros y Hy. apply H, elem_of_cons. by right.
Qed.

(** X15.  A fetched series without any value (empty, or nulls only) gives
    [NaN] as daily, weekly, monthly and yearly figure, and
    [calculateEnergyOutput] then computes with the 4.2 hours default, as
    if no data had been fetched. *)
Theorem X15_series_without_values_falls_back (sunshine : list (option num))
    (Hnulls : forall x, x ∈ sunshine -> x = None) :
  fetchedSunlightData sunshine = mkSunlight NaN NaN NaN NaN /\
  forall z, calculateEnergyOutput (Some (fetchedSunlightData sunshine)) z
            = calculateEnergyOutput None z.
Proof.
  assert (H : fetchedSunlightData sunshine = mkSunlight NaN NaN NaN NaN).
  { unfold fetchedSunlightData, calculateWeeklyTotal, calculateMonthlyAverage,
      calculateYearlyEstimate, calculateDailyAverage. cbv zeta.
    by rewrite (validHours_processed_nulls _ Hnulls). }
  split; [exact H |]. intros z. by rewrite H.
Qed.

Lemma processHour_withinDay (q : Qc) :
  (0 <= q)%Qc -> (q <= Qc_of_Z 86400)%Qc ->
  exists v, processHour (Some (Fin q)) = Some v /\ withinDay v.
Proof.
  intros H0 Hmax. unfold processHour, gt, int.
  destruct (q ?= Qc_of_Z 24)%Qc eqn:E.
  - exists (Fin q). split; [done |]. exists q. repeat split; [done |].
    apply (proj2 (Qceq_alt _ _)) in E. rewrite E. apply Qcle_refl.
  - exists (Fin q). split; [done |]. exists q. repeat split; [done |].
    apply Qclt_le_weak. by apply (proj2 (Qclt_alt _ _)).
  - assert (H3600 : (0 < Qc_of_Z 3600)%Qc) by (apply Qc_of_Z_pos; lia).
    exists (Fin (round64 (q / Qc_of_Z 3600))). split.
    + by rewrite div_Fin by (by apply Qc_pos_nonzero).
    + exists (round64 (q / Qc_of_Z 3600)). split; [done |]. split.
      * apply round64_nonneg. by apply Qc_div_nonneg.
      * apply round64_le_Z; [vm_compute; discriminate |].
        assert (E24 : Qc_of_Z 24 = (Qc_of_Z 86400 / Qc_of_Z 3600)%Qc)
          by (apply Qc_closed_eq; vm_compute; reflexivity).
        rewrite E24. by apply Qc_div_le_compat.
Qed.

Lemma validHours_processed_withinDay (sunshine : list (option num)) :
  (forall v, Some v ∈ sunshine ->
     exists q, v = Fin q /\ (0 <= q)%Qc /\ (q <= Qc_of_Z 86400)%Qc) ->
  Forall withinDay (validHours (processedHours sunshine)) /\
  length (validHours (processedHours sunshine)) = length (validHours sunshine).
Proof.
  induction sunshine as [| x l IH]; intros H; [by split |].
  destruct IH as [IH1 IH2].
  { intros v Hv. apply H, elem_of_cons. by right. }
  destruct x as [v |].
  - destruct (H v) as (q & -> & H0 & Hmax); [apply elem_of_cons; by left |].
    destruct (processHour_withinDay q H0 Hmax) as (v' & Hv' & Hday).
    unfold validHours, processedHours in *. cbn [map omap list_omap].
    rewrite Hv'. cbn [list_omap]. split; [by constructor | cbn [length]; by f_equal].
  - unfold validHours, processedHours in *. cbn [map omap list_omap]. by split.
Qed.

(** The running sum of up to [2^48] values within a day stays within the
    whole numbers that doubles represent exactly, so no rounding takes
    it above 24 hours a value. *)
Lemma sum_withinDay (l : list num) (a : Qc) (i : Z) :
  Forall withinDay l ->
  (0 <= i)%Z -> (i + Z.of_nat (length l) <= 2 ^ 48)%Z ->
  (0 <= a)%Qc -> (a <= Qc_of_Z (24 * i))%Qc ->
  exists t : Qc, foldl (fun sum hours => add sum hours) (Fin a) l = Fin t /\
    (0 <= t)%Qc /\ (t <= Qc_of_Z (24 * (i + Z.of_nat (length l))))%Qc.
Proof.
  revert a i. induction l as [| v l IH]; intros a i Hl Hi Hlen Ha0 Ha.
  - exists a. split; [done |]. split; [done |].
    change (Z.of_nat (length (@nil num))) with 0%Z. by rewrite Z.add_0_r.
  - apply Forall_cons in Hl as [(q & -> & H0 & H24) Hl].
    change (length (Fin q :: l)) with (S (length l)) in *.
    rewrite Nat2Z.inj_succ in *.
    change (2 ^ 48)%Z with 281474976710656%Z in Hlen.
    destruct (IH (round64 (a + q)) (i + 1)%Z Hl) as (t & Ht & Hlo & Hhi).
    + lia.
    + change (2 ^ 48)%Z with 281474976710656%Z. lia.
    + apply round64_nonneg. by apply Qcplus_nonneg_nonneg.
    + apply round64_le_Z.
      * change (2 ^ 53)%Z with 9007199254740992%Z. lia.
      * replace (24 * (i + 1))%Z with (24 * i + 24)%Z by lia.
        rewrite Z2Qc_inj_add. by apply Qcplus_le_compat.
    + exists t. split; [exact Ht |]. split; [exact Hlo |].
      replace (i + Z.succ (Z.of_nat (length l)))%Z
        with (i + 1 + Z.of_nat (length l))%Z by lia.
      exact Hhi.
Qed.

(** X16.  If every value of a fetched series is a finite number between 0
    and 86400 (a day in seconds), the series has at least one value and
    at most [2^48] entries, the stored daily average is a whole number of
    tenths between 0 and 24 hours.  (A series of more than [2^53 / 24]
    entries would take the running sum beyond the whole numbers that
    doubles represent exactly.) *)
Theorem X16_daily_average_within_a_day (sunshine : list (option num))
    (Hrange : forall v, Some v ∈ sunshine ->
                exists q, v = Fin q /\ (0 <= q)%Qc /\ (q <= Qc_of_Z 86400)%Qc)
    (Hvalue : exists v, Some v ∈ sunshine)
    (Hlength : (Z.of_nat (length sunshine) <= 2 ^ 48)%Z) :
  exists k : Z,
    daily (fetchedSunlightData sunshine) = div (int k) (int 10) /\
    (0 <= k <= 240)%Z.
Proof.
  destruct (validHours_processed_withinDay sunshine Hrange) as [Hday Hlen].
  assert (Hn : (0 < length (validHours sunshine))%nat).
  { destruct Hvalue as [v Hv]. clear -Hv.
    induction sunshine as [| x l IH]; [by apply elem_of_nil in Hv |].
    apply elem_of_cons in Hv as [<- | Hv]; [cbn; lia |].
    destruct x; cbn; [lia | by apply IH]. }
  pose proof (validHours_length sunshine) as Hshort.
  unfold fetchedSunlightData. cbv zeta. cbn [daily].
  unfold calculateDailyAverage. cbv zeta.
  set (valid := validHours (processedHours sunshine)) in *.
  destruct (sum_withinDay valid (Qc_of_Z 0) 0 Hday) as (t & Ht & Hlo & Hhi).
  { lia. }
  { lia. }
  { apply Qc_of_Z_nonneg. lia. }
  { apply Qcle_refl. }
  change (int 0) with (Fin (Qc_of_Z 0)). rewrite Ht.
  rewrite Z.add_0_l in Hhi.
  set (N := Z.of_nat (length valid)) in *.
  assert (HN : (0 < N)%Z) by lia.
  assert (Hnpos : (0 < Qc_of_Z N)%Qc) by (by apply Qc_of_Z_pos).
  unfold int at 1. rewrite div_Fin by (by apply Qc_pos_nonzero).
  assert (Havg0 : (0 <= t / Qc_of_Z N)%Qc) by (by apply Qc_div_nonneg).
  assert (Havg24 : (t / Qc_of_Z N <= Qc_of_Z 24)%Qc).
  { apply (Qcmult_lt_0_le_reg_r _ _ (Qc_of_Z N) Hnpos).
    rewrite test_field by (by apply Qc_pos_nonzero).
    by rewrite <- Z2Qc_inj_mul. }
  assert (Hr0 : (0 <= round64 (t / Qc_of_Z N))%Qc) by (by apply round64_nonneg).
  assert (Hr24 : (round64 (t / Qc_of_Z N) <= Qc_of_Z 24)%Qc)
    by (apply round64_le_Z; [vm_compute; discriminate | done]).
  unfold int at 1. rewrite mul_Fin, Math_round_Fin.
  eexists. split; [reflexivity |].
  assert (H10 : (0 <= Qc_of_Z 10)%Qc) by (apply Qc_of_Z_nonneg; lia).
  split.
  - apply floor_half_nonneg, round64_nonneg. by apply Qcmult_nonneg_nonneg.
  - apply floor_half_le_Z. apply round64_le_Z; [vm_compute; discriminate |].
    replace (Qc_of_Z 240) with (Qc_of_Z 24 * Qc_of_Z 10)%Qc
      by (rewrite <- Z2Qc_inj_mul; reflexivity).
    by apply Qcmult_le_compat_r.
Qed.

Lemma gt_Fin_true (a b : Qc) : gt (Fin a) (Fin b) = true -> (b < a)%Qc.
Proof.
  unfold gt. destruct (a ?= b)%Qc eqn:E; try discriminate.
  intros _. by apply (proj2 (Qcgt_alt _ _)).
Qed.

Lemma gt_Fin_false (a b : Qc) : gt (Fin a) (Fin b) = false -> (a <= b)%Qc.
Proof.
  unfold gt. destruct (a ?= b)%Qc eqn:E; try discriminate; intros _.
  - apply (proj2 (Qceq_alt _ _)) in E. rewrite E. apply Qcle_refl.
  - apply Qclt_le_weak. by apply (proj2 (Qclt_alt _ _)).
Qed.

Lemma Math_abs_Fin (q : Qc) : exists a : Qc, Math_abs (Fin q) = Fin a.
Proof. unfold Math_abs. destruct (q ?= 0)%Qc; eauto. Qed.

Lemma Math_abs_opp (q : Qc) : Math_abs (Fin (- q)%Qc) = Math_abs (Fin q).
Proof.
  unfold Math_abs.
  destruct (q ?= 0)%Qc eqn:E.
  - apply (proj2 (Qceq_alt _ _)) in E. subst q.
    replace (- 0)%Qc with 0%Qc by ring. reflexivity.
  - apply (proj2 (Qclt_alt _ _)) in E.
    assert (H : (0 < - q)%Qc).
    { apply (proj1 (Qclt_minus_iff _ _)) in E.
      by replace (0 + - q)%Qc with (- q)%Qc in E by ring. }
    by rewrite (proj1 (Qcgt_alt _ _) H).
  - apply (proj2 (Qcgt_alt _ _)) in E.
    assert (H : (- q < 0)%Qc).
    { apply (proj2 (Qclt_minus_iff _ _)).
      by replace (0 + - - q)%Qc with q by ring. }
    rewrite (proj1 (Qclt_alt _ _) H). f_equal. ring.
Qed.

(** Closes a goal whose hypotheses put [a1] at or above a threshold that
    [a2] is below, although [a1 <= a2]. *)
Ltac band_contradiction :=
  match goal with
  | Hlt : (?a2 < ?t)%Qc, Hle : (?t <= ?a1)%Qc, H : (?a1 <= ?a2)%Qc |- _ =>
      exfalso; apply (Qclt_not_le _ _ (Qcle_lt_trans _ _ _ H Hlt)); exact Hle
  end.

(** X17.  [getFallbackSunlightData] depends on the latitude only through
    its absolute value (north and south give the same estimate), its
    daily estimate never grows when the absolute latitude grows, its
    weekly figure is 7 times the daily estimate shown to one decimal (for
    3.2 hours the product itself is 22.400000000000002) and its monthly
    figure is exactly 30 times the daily estimate. *)
Theorem X17_fallback_estimate_by_latitude_band (q1 q2 : Qc) :
  getFallbackSunlightData (Fin (- q1)%Qc) = getFallbackSunlightData (Fin q1) /\
  (gt (Math_abs (Fin q1)) (Math_abs (Fin q2)) = false ->
   gt (daily (getFallbackSunlightData (Fin q2))) (daily (getFallbackSunlightData (Fin q1)))
   = false) /\
  weekly (getFallbackSunlightData (Fin q1))
    = toFixed 1 (mul (daily (getFallbackSunlightData (Fin q1))) (int 7)) /\
  monthly (getFallbackSunlightData (Fin q1))
    = mul (daily (getFallbackSunlightData (Fin q1))) (int 30).
Proof.
  split; [| split].
  - unfold getFallbackSunlightData. by rewrite Math_abs_opp.
  - destruct (Math_abs_Fin q1) as [a1 H1]. destruct (Math_abs_Fin q2) as [a2 H2].
    unfold getFallbackSunlightData. cbv zeta. cbn [daily].
    rewrite H1, H2. intros Hle. apply gt_Fin_false in Hle.
    unfold int.
    destruct (gt (Fin (dec 235 10)) (Fin a1)) eqn:A1;
      [apply gt_Fin_true in A1 | apply gt_Fin_false in A1];
    (destruct (gt (Fin (Qc_of_Z 40)) (Fin a1)) eqn:B1;
      [apply gt_Fin_true in B1 | apply gt_Fin_false in B1]);
    (destruct (gt (Fin (Qc_of_Z 60)) (Fin a1)) eqn:C1;
      [apply gt_Fin_true in C1 | apply gt_Fin_false in C1]);
    (destruct (gt (Fin (dec 235 10)) (Fin a2)) eqn:A2;
      [apply gt_Fin_true in A2 | apply gt_Fin_false in A2]);
    (destruct (gt (Fin (Qc_of_Z 40)) (Fin a2)) eqn:B2;
      [apply gt_Fin_true in B2 | apply gt_Fin_false in B2]);
    (destruct (gt (Fin (Qc_of_Z 60)) (Fin a2)) eqn:C2;
      [apply gt_Fin_true in C2 | apply gt_Fin_false in C2]);
    first [by vm_compute | band_contradiction].
  - unfold getFallbackSunlightData. cbv zeta. cbn [daily weekly monthly].
    destruct (gt (Fin (dec 235 10)) (Math_abs (Fin q1)));
      [| destruct (gt (int 40) (Math_abs (Fin q1)));
         [| destruct (gt (int 60) (Math_abs (Fin q1)))]];
      split; num_eq.
Qed.

(* ===================================================================== *)
(** ** Further properties: address search *)
(* ===================================================================== *)

Lemma selectLocation_None_iff (searchResults : list SearchItem.t) :
  selectLocation searchResults = None <-> searchResults = [].
Proof.
  unfold selectLocation. destruct searchResults as [| first rest]; [done |].
  split; [| discriminate].
  destruct (find hasHouseNumber (first :: rest)); [discriminate |].
  destruct (find isSettlement (first :: rest)); discriminate.
Qed.

Lemma selectLocation_member (searchResults : list SearchItem.t) (item : SearchItem.t) :
  selectLocation searchResults = Some item -> item ∈ searchResults.
Proof.
  unfold selectLocation. destruct searchResults as [| first rest]; [discriminate |].
  destruct (find hasHouseNumber (first :: rest)) as [h |] eqn:Hh.
  - intros [= <-]. apply find_some in Hh as [Hin _]. by apply list_elem_of_In.
  - destruct (find isSettlement (first :: rest)) as [c |] eqn:Hc.
    + intros [= <-]. apply find_some in Hc as [Hin _]. by apply list_elem_of_In.
    + intros [= <-]. apply elem_of_cons. by left.
Qed.

Lemma selectLocation_house_number (searchResults : list SearchItem.t) (item x : SearchItem.t) :
  selectLocation searchResults = Some item ->
  x ∈ searchResults -> hasHouseNumber x = true -> hasHouseNumber item = true.
Proof.
  unfold selectLocation. destruct searchResults as [| first rest]; [discriminate |].
  intros Hsel Hx Hnum.
  destruct (find hasHouseNumber (first :: rest)) as [h |] eqn:Hh.
  - injection Hsel as <-. by apply find_some in Hh as [_ Hh].
  - apply list_elem_of_In in Hx.
    rewrite (find_none _ _ Hh x Hx) in Hnum. discriminate.
Qed.

Lemma selectLocation_settlement (searchResults : list SearchItem.t) (item x : SearchItem.t) :
  selectLocation searchResults = Some item ->
  (forall y, y ∈ searchResults -> hasHouseNumber y = false) ->
  x ∈ searchResults -> isSettlement x = true -> isSettlement item = true.
Proof.
  unfold selectLocation. destruct searchResults as [| first rest]; [discriminate |].
  intros Hsel Hnone Hx Hset.
  destruct (find hasHouseNumber (first :: rest)) as [h |] eqn:Hh.
  - apply find_some in Hh as [Hin Hnum]. apply list_elem_of_In in Hin.
    rewrite (Hnone h Hin) in Hnum. discriminate.
  - destruct (find isSettlement (first :: rest)) as [c |] eqn:Hc.
    + injection Hsel as <-. by apply find_some in Hc as [_ Hc].
    + apply list_elem_of_In in Hx.
      rewrite (find_none _ _ Hc x Hx) in Hset. discriminate.
Qed.

Lemma selectLocation_first (searchResults : list SearchItem.t) :
  (forall x, x ∈ searchResults -> hasHouseNumber x = false) ->
  (forall x, x ∈ searchResults -> isSettlement x = false) ->
  selectLocation searchResults = head searchResults.
Proof.
  unfold selectLocation. destruct searchResults as [| first rest]; [done |].
  intros Hnone Hnoset.
  destruct (find hasHouseNumber (first :: rest)) as [h |] eqn:Hh.
  - apply find_some in Hh as [Hin Hnum]. apply list_elem_of_In in Hin.
    rewrite (Hnone h Hin) in Hnum. discriminate.
  - destruct (find isSettlement (first :: rest)) as [c |] eqn:Hc; [| done].
    apply find_some in Hc as [Hin Hset]. apply list_elem_of_In in Hin.
    rewrite (Hnoset c Hin) in Hset. discriminate.
Qed.

(** X18.  The choice among the search results: nothing is chosen exactly
    when the list is empty; the chosen entry is always one of the
    results; if some result has a house number, the chosen one has a
    house number; if none has but some result is a city, town or village,
    the chosen one is a city, town or village; otherwise the first result
    is chosen. *)
Theorem X18_selectLocation_priorities (searchResults : list SearchItem.t) :
  (selectLocation searchResults = None <-> searchResults = []) /\
  (forall item, selectLocation searchResults = Some item -> item ∈ searchResults) /\
  (forall item x, selectLocation searchResults = Some item ->
     x ∈ searchResults -> hasHouseNumber x = true ->
     hasHouseNumber item = true) /\
  (forall item x, selectLocation searchResults = Some item ->
     (forall y, y ∈ searchResults -> hasHouseNumber y = false) ->
     x ∈ searchResults -> isSettlement x = true ->
     isSettlement item = true) /\
  ((forall x, x ∈ searchResults -> hasHouseNumber x = false) ->
   (forall x, x ∈ searchResults -> isSettlement x = false) ->
   selectLocation searchResults = head searchResults).
Proof.
  split; [apply selectLocation_None_iff |].
  split; [apply selectLocation_member |].
  split; [apply selectLocation_house_number |].
  split; [apply selectLocation_settlement | apply selectLocation_first].
Qed.

Lemma valid_coordinate (x : num) (lo hi : Z) :
  isNaN x = false -> lt x (int lo) = false -> gt x (int hi) = false ->
  exists a : Qc, x = Fin a /\ (Qc_of_Z lo <= a)%Qc /\ (a <= Qc_of_Z hi)%Qc.
Proof.
  destruct x as [a | | |]; try discriminate.
  intros _ Hlo Hhi. exists a. split; [done |]. split.
  - by apply gt_Fin_false in Hlo.
  - by apply gt_Fin_false in Hhi.
Qed.

Lemma zoomLevelOf_values (type : string) :
  zoomLevelOf type = 14%Z \/ zoomLevelOf type = 16%Z \/
  zoomLevelOf type = 17%Z \/ zoomLevelOf type = 19%Z.
Proof.
  unfold zoomLevelOf.
  destruct (_ || _); [by left |].
  destruct (_ || _); [right; by left |].
  destruct (_ || _); [right; right; by left | right; right; by right].
Qed.

(** X19.  What [searchAddress] does with a result list: it reports
    'not found' exactly for the empty list; and whenever it centres the
    map, the location is one of the results, its latitude and longitude
    are finite numbers within [-90, 90] and [-180, 180] (anything else
    throws), and the zoom level is 14, 16, 17 or 19, never above the
    maximum zoom 19 of the street layer. *)
Theorem X19_locate_outcomes (searchResults : list SearchItem.t) :
  (locate searchResults = NotFound <-> searchResults = []) /\
  (forall latitude longitude zoomLevel location,
     locate searchResults = SetView latitude longitude zoomLevel location ->
     location ∈ searchResults /\
     selectLocation searchResults = Some location /\
     (exists a o : Qc,
        latitude = Fin a /\ longitude = Fin o /\
        (Qc_of_Z (-90) <= a)%Qc /\ (a <= Qc_of_Z 90)%Qc /\
        (Qc_of_Z (-180) <= o)%Qc /\ (o <= Qc_of_Z 180)%Qc) /\
     zoomLevel = zoomLevelOf (SearchItem.type location) /\
     (14 <= zoomLevel <= 19)%Z).
Proof.
  unfold locate. split.
  - rewrite <- selectLocation_None_iff.
    destruct (selectLocation searchResults) as [loc |]; [| done].
    cbv zeta. split; [| discriminate].
    by destruct (invalidCoordinates _ _).
  - intros latitude longitude zoomLevel location.
    destruct (selectLocation searchResults) as [loc |] eqn:Hsel; [| discriminate].
    cbv zeta.
    destruct (invalidCoordinates (SearchItem.lat loc) (SearchItem.lon loc)) eqn:Hinv;
      [discriminate |].
    intros [= <- <- <- <-].
    unfold invalidCoordinates in Hinv.
    apply orb_false_iff in Hinv as [Hinv Hlon2].
    apply orb_false_iff in Hinv as [Hinv Hlon1].
    apply orb_false_iff in Hinv as [Hinv Hlat2].
    apply orb_false_iff in Hinv as [Hinv Hlat1].
    apply orb_false_iff in Hinv as [Hnan1 Hnan2].
    destruct (valid_coordinate (SearchItem.lat loc) (-90) 90 Hnan1 Hlat1 Hlat2)
      as (a & Ha & Ha1 & Ha2).
    destruct (valid_coordinate (SearchItem.lon loc) (-180) 180 Hnan2 Hlon1 Hlon2)
      as (o & Ho & Ho1 & Ho2).
    split; [by apply selectLocation_member |]. split; [done |].
    split; [by exists a, o |]. split; [done |].
    destruct (zoomLevelOf_values (SearchItem.type loc)) as [-> | [-> | [-> | ->]]]; lia.
Qed.

(* ===================================================================== *)
(** ** Further properties: solar metrics, period figures, optimisation *)
(* ===================================================================== *)

Lemma ge_Fin_mono (a b t : Qc) :
  (a <= b)%Qc -> ge (Fin a) (Fin t) = true -> ge (Fin b) (Fin t) = true.
Proof.
  intros Hle. unfold ge.
  destruct (a ?= t)%Qc eqn:Ea; [| discriminate |]; intros _;
    destruct (b ?= t)%Qc eqn:Eb; try done; exfalso;
    apply (proj2 (Qclt_alt _ _)) in Eb.
  - apply (proj2 (Qceq_alt _ _)) in Ea. subst a.
    by apply (Qclt_not_le _ _ Eb).
  - apply (proj2 (Qcgt_alt _ _)) in Ea.
    apply (Qclt_not_le _ _ (Qclt_trans _ _ _ Eb Ea)). exact Hle.
Qed.


(** X20.  The rating of [calculateSolarMetrics] never goes down when the
    daily sun hours go up: for finite [a <= b] the rating for [a] is at
    most the rating for [b] in the order Poor, Fair, Good, Very Good,
    Excellent; no ordering test succeeds on [NaN], which is rated
    Poor. *)
Theorem X20_solar_rating_is_monotone (a b : Qc) (Hle : (a <= b)%Qc) :
  (rank (solarPotentialOf (Fin a)) <= rank (solarPotentialOf (Fin b)))%nat /\
  solarPotentialOf NaN = Poor.
Proof.
  split; [| reflexivity].
  unfold solarPotentialOf.
  pose proof (ge_Fin_mono a b (dec 55 10) Hle) as H1.
  pose proof (ge_Fin_mono a b (dec 45 10) Hle) as H2.
  pose proof (ge_Fin_mono a b (dec 35 10) Hle) as H3.
  pose proof (ge_Fin_mono a b (dec 25 10) Hle) as H4.
  destruct (ge (Fin a) (Fin (dec 55 10)));
    [rewrite (H1 eq_refl); simpl; lia |].
  destruct (ge (Fin a) (Fin (dec 45 10)));
    [rewrite (H2 eq_refl); destruct (ge (Fin b) _); simpl; lia |].
  destruct (ge (Fin a) (Fin (dec 35 10)));
    [rewrite (H3 eq_refl); repeat destruct (ge (Fin b) _); simpl; lia |].
  destruct (ge (Fin a) (Fin (dec 25 10)));
    [rewrite (H4 eq_refl); repeat destruct (ge (Fin b) _); simpl; lia |].
  repeat destruct (ge (Fin b) _); simpl; lia.
Qed.








End Core.

(* ===================================================================== *)
(** ** The claims on concrete inputs *)
(* ===================================================================== *)

(** Closed equations between numbers, by evaluation. *)
Ltac num_eval := apply num_eqb_eq; vm_compute; reflexivity.

(** Membership in a concrete zone list, case by case. *)
Ltac zone_cases H :=
  vm_compute in H;
  repeat (apply elem_of_cons in H as [-> | H]);
  try (by apply elem_of_nil in H).

(** C2, the claim as stated fails: a zone whose panel count was set to 60
    has 25 panels again after its geometry is edited. *)
Lemma C2_edit_resets_panelCount :
  let s := fst (zonePanelCount_input (int 60) (exampleOneZone planarArea)) in
  let s' := onDrawEdited planarArea [1%nat] (setLatLngs 1 (rect 20 10) s) in
  panelCount (zoneObjs s 1%nat) = int 60 /\
  area (zoneObjs s' 1%nat) = int 200 /\
  panelCount (zoneObjs s' 1%nat) = int 25 /\
  panelCount (zoneObjs s' 1%nat) <> panelCount (zoneObjs s 1%nat).
Proof.
  cbv zeta. repeat split; try num_eval.
  intros H. apply (f_equal (fun x => num_eqb x (int 60))) in H.
  vm_compute in H. discriminate.
Qed.


(** C5, the claim as stated fails: with an edit session active for zone
    1, [editZone] for zone 2 is carried out and overwrites both the
    editing-zone reference and the geometry snapshot. *)
Lemma C5_second_editZone_is_not_rejected :
  let s1 := editZone exactGeoJSON 1 (exampleTwoZones planarArea) in
  let s2 := editZone exactGeoJSON 2 s1 in
  currentEditingZone s1 = Some 1%nat /\
  currentEditingZone s2 = Some 2%nat /\
  originalGeometry s2 <> originalGeometry s1 /\
  currentEditingZone s2 <> currentEditingZone s1.
Proof.
  cbv zeta. repeat split; try (vm_compute; reflexivity).
  - intros H. vm_compute in H. discriminate.
  - intros H. vm_compute in H. discriminate.
Qed.



(** C2 on the store with one zone, whose layer is reshaped to 20 x 10. *)
Lemma C2_onDrawEdited_recomputes_area_witness :
  let s := exampleOneZone planarArea in
  (1%nat ∈ drawingZones s /\ uniqueLayers s) /\
  let s' := onDrawEdited planarArea [1%nat] (setLatLngs 1 (rect 20 10) s) in
  area (zoneObjs s' 1%nat) = calculateArea planarArea (layerObjs s' 1%nat) /\
  panelCount (zoneObjs s' 1%nat) = int 25.
Proof.
  assert (Hin : 1%nat ∈ drawingZones (exampleOneZone planarArea))
    by (vm_compute; constructor).
  assert (Huniq : uniqueLayers (exampleOneZone planarArea)).
  { intros r r' Hr Hr' _. zone_cases Hr. zone_cases Hr'. reflexivity. }
  split; [split; [exact Hin | exact Huniq] |].
  pose proof (C2_onDrawEdited_recomputes_area planarArea (exampleOneZone planarArea)
                1%nat (rect 20 10) Hin Huniq) as H.
  destruct H as (_ & _ & Harea & Hcount & _).
  split; [exact Harea | exact Hcount].
Defined.


(** C5 on the store with two zones, while zone 1 is being edited. *)
Lemma C5_editZone_replaces_session_witness :
  let s := editZone exactGeoJSON 1 (exampleTwoZones planarArea) in
  (2%nat ∈ drawingZones s /\ uniqueIds s) /\
  currentEditingZone s = Some 1%nat /\
  currentEditingZone (editZone exactGeoJSON (id (zoneObjs s 2%nat)) s) = Some 2%nat.
Proof.
  assert (Hin : 2%nat ∈ drawingZones (editZone exactGeoJSON 1 (exampleTwoZones planarArea)))
    by (vm_compute; constructor; constructor).
  assert (Huniq : uniqueIds (editZone exactGeoJSON 1 (exampleTwoZones planarArea))).
  { intros r r' Hr Hr' Hid. zone_cases Hr; zone_cases Hr';
      vm_compute in Hid; congruence. }
  split; [split; [exact Hin | exact Huniq] |].
  split; [vm_compute; reflexivity |].
  exact (proj1 (C5_editZone_replaces_session exactGeoJSON
                  (editZone exactGeoJSON 1 (exampleTwoZones planarArea)) 2%nat Hin Huniq)).
Defined.


(** C8 for a zone of 25 panels of 400 W with a ratio of 0.85. *)
Lemma C8_calculateEnergyOutput_witness :
  let z := mkZone 1 1 polygon (int 100) (int 25) (int 400) (Fin (dec 85 100)) in
  truthy (efficiency z) = true /\
  calculateEnergyOutput None z
    = mul (mul (mul (systemSizeOf z) (Fin (dec 42 10))) (int 365)) (efficiency z).
Proof.
  assert (H : truthy (efficiency (mkZone 1 1 polygon (int 100) (int 25) (int 400)
                                         (Fin (dec 85 100)))) = true)
    by (vm_compute; reflexivity).
  split; [exact H |].
  exact (proj1 (proj2 (C8_calculateEnergyOutput _ H))).
Defined.


(** C10 on a series of 36000 seconds, a null entry and 5 hours. *)
Lemma C10_sunshine_processing_witness :
  let sunshine := [Some (int 36000); None; Some (int 5)] in
  processedHours sunshine !! 0%nat
    = Some (Some (Fin (round64 (Qc_of_Z 36000 / Qc_of_Z 3600))%Qc)) /\
  processedHours sunshine !! 1%nat = Some None /\
  processedHours sunshine !! 2%nat = Some (Some (int 5)) /\
  daily (fetchedSunlightData sunshine) = Fin (dec 75 10).
Proof.
  pose proof (C10_sunshine_processing [Some (int 36000); None; Some (int 5)])
    as (_ & Hsec & Hhour & Hnull & _ & _ & _ & Hdaily & _).
  split; [| split; [| split]].
  - apply (Hsec 0%nat (Qc_of_Z 36000)); [reflexivity | vm_compute; reflexivity].
  - apply (Hnull 1%nat). reflexivity.
  - apply (Hhour 2%nat (Qc_of_Z 5)); [reflexivity | vm_compute; discriminate].
  - exact Hdaily.
Defined.

(* ===================================================================== *)
(** ** The further properties on concrete inputs *)
(* ===================================================================== *)

(** X1 on the store with two zones, deleting zone 1. *)
Lemma X1_deleteZone_removes_exactly_that_zone_witness :
  let s := exampleTwoZones planarArea in
  (1%nat ∈ drawingZones s /\ uniqueIds s /\ NoDup (drawingZones s)) /\
  (1%nat ∉ drawingZones (deleteZone (id (zoneObjs s 1%nat)) s)) /\
  S (length (drawingZones (deleteZone (id (zoneObjs s 1%nat)) s)))
    = length (drawingZones s).
Proof.
  assert (Hin : 1%nat ∈ drawingZones (exampleTwoZones planarArea))
    by (vm_compute; constructor).
  assert (Huniq : uniqueIds (exampleTwoZones planarArea)).
  { intros r r' Hr Hr' Hid. zone_cases Hr; zone_cases Hr';
      vm_compute in Hid; congruence. }
  assert (Hnodup : NoDup (drawingZones (exampleTwoZones planarArea))).
  { apply (bool_decide_unpack _). vm_compute. exact I. }
  split; [split; [exact Hin | split; [exact Huniq | exact Hnodup]] |].
  pose proof (X1_deleteZone_removes_exactly_that_zone (exampleTwoZones planarArea)
                1%nat Hin Huniq Hnodup) as H.
  destruct H as (Hgone & Hlen & _).
  split; [exact Hgone | exact Hlen].
Defined.

(** X2 on the store with one zone and the id 7, which no zone has. *)
Lemma X2_deleteZone_unknown_id_is_noop_witness :
  let s := exampleOneZone planarArea in
  (forall r, r ∈ drawingZones s -> id (zoneObjs s r) <> 7%nat) /\
  deleteZone 7 s = s.
Proof.
  assert (Hunknown : forall r, r ∈ drawingZones (exampleOneZone planarArea) ->
                       id (zoneObjs (exampleOneZone planarArea) r) <> 7%nat).
  { intros r Hr. zone_cases Hr. intros E. vm_compute in E. discriminate E. }
  split; [exact Hunknown |].
  exact (X2_deleteZone_unknown_id_is_noop 7%nat (exampleOneZone planarArea) Hunknown).
Defined.

(** X3 on the store with two zones, deleting the selected zone 2. *)
Lemma X3_deleteZone_selection_fallback_witness :
  let s := exampleTwoZones planarArea in
  let s' := deleteZone (id (zoneObjs s 2%nat)) s in
  (2%nat ∈ drawingZones s /\ uniqueIds s /\ selectedZone s = Some 2%nat) /\
  selectedZone s' = head (drawingZones s').
Proof.
  assert (Hin : 2%nat ∈ drawingZones (exampleTwoZones planarArea))
    by (vm_compute; constructor; constructor).
  assert (Huniq : uniqueIds (exampleTwoZones planarArea)).
  { intros r r' Hr Hr' Hid. zone_cases Hr; zone_cases Hr';
      vm_compute in Hid; congruence. }
  assert (Hsel : selectedZone (exampleTwoZones planarArea) = Some 2%nat)
    by (vm_compute; reflexivity).
  split; [split; [exact Hin | split; [exact Huniq | exact Hsel]] |].
  exact (proj1 (X3_deleteZone_selection_fallback (exampleTwoZones planarArea)
                  2%nat Hin Huniq) Hsel).
Defined.

(** X4 on a creation, its callback and the deletion of the zone. *)
Lemma X4_store_invariants_after_any_sequence_witness :
  let ops := [OpCreate 1 polygon; OpTimer; OpDelete 1] in
  let s := appOf (runOps planarArea ops (load exampleLayers exampleZones)) in
  quiet ops 0 = true /\
  zoneCounter s = 1%nat /\
  selectionInStore s.
Proof.
  assert (Hquiet : quiet [OpCreate 1 polygon; OpTimer; OpDelete 1] 0 = true)
    by reflexivity.
  split; [exact Hquiet |].
  pose proof (X4_store_invariants_after_any_sequence planarArea
                [OpCreate 1 polygon; OpTimer; OpDelete 1] exampleLayers exampleZones) as H.
  cbv zeta in H. destruct H as (Hcounter & _ & _ & _ & _ & Hsel & _).
  split; [exact Hcounter | exact (Hsel Hquiet)].
Defined.

(** X5 on the store with one zone, drawing a second one on layer 2. *)
Lemma X5_onDrawCreated_adds_to_totals_witness :
  let s := exampleOneZone planarArea in
  idsFromCounter s /\
  Totals.totalPanels (computeTotals (onDrawCreated planarArea 2%nat rectangle s))
    = add (Totals.totalPanels (computeTotals s)) (int 25) /\
  Totals.totalPower (computeTotals (onDrawCreated planarArea 2%nat rectangle s))
    = add (Totals.totalPower (computeTotals s)) (int 10).
Proof.
  assert (Hids : idsFromCounter (exampleOneZone planarArea)).
  { intros r Hr. zone_cases Hr. split; [vm_compute; lia | vm_compute; reflexivity]. }
  split; [exact Hids |].
  pose proof (X5_onDrawCreated_adds_to_totals planarArea 2%nat rectangle
                (exampleOneZone planarArea) Hids) as H.
  destruct H as (_ & _ & _ & _ & Hpanels & Hpower & _).
  split; [exact Hpanels | exact Hpower].
Defined.

(** X6 on the store with two zones and an event for layer 5, which no
    zone has. *)
Lemma X6_onDrawDeleted_filters_by_layer_witness :
  let s := exampleTwoZones planarArea in
  (forall r, r ∈ drawingZones s -> layer (zoneObjs s r) ∉ [5%nat]) /\
  onDrawDeleted [5%nat] s = s.
Proof.
  assert (Hnone : forall r, r ∈ drawingZones (exampleTwoZones planarArea) ->
                    layer (zoneObjs (exampleTwoZones planarArea) r) ∉ [5%nat]).
  { intros r Hr. zone_cases Hr; intros H; apply list_elem_of_singleton in H;
      vm_compute in H; discriminate H. }
  split; [exact Hnone |].
  pose proof (X6_onDrawDeleted_filters_by_layer [5%nat] (exampleTwoZones planarArea)) as H.
  destruct H as (_ & _ & _ & _ & Hsame).
  exact (Hsame Hnone).
Defined.

(** X7 on the store with two zones, after an edit of layer 1. *)
Lemma X7_onDrawEdited_updates_edited_layers_only_witness :
  let s := setLatLngs 1 (rect 20 10) (exampleTwoZones planarArea) in
  let s' := onDrawEdited planarArea [1%nat] s in
  uniqueLayers s /\
  panelCount (zoneObjs s' 1%nat) = int 25 /\
  zoneObjs s' 2%nat = zoneObjs s 2%nat.
Proof.
  assert (Huniq : uniqueLayers (setLatLngs 1 (rect 20 10) (exampleTwoZones planarArea))).
  { intros r r' Hr Hr' Hl. zone_cases Hr; zone_cases Hr';
      vm_compute in Hl; congruence. }
  split; [exact Huniq |].
  pose proof (X7_onDrawEdited_updates_edited_layers_only planarArea [1%nat]
                (setLatLngs 1 (rect 20 10) (exampleTwoZones planarArea)) Huniq) as H.
  destruct H as (_ & _ & Hedited & Hother & _).
  split.
  - apply (Hedited 1%nat).
    + vm_compute. constructor.
    + apply list_elem_of_singleton. vm_compute. reflexivity.
  - apply (Hother 2%nat).
    + vm_compute. constructor. constructor.
    + intros E. apply list_elem_of_singleton in E. vm_compute in E. discriminate E.
Defined.

(** X8 on the store with one zone, dragged to 20 x 10 and saved. *)
Lemma X8_saveZoneEdit_commits_current_geometry_witness :
  let s := exampleOneZone planarArea in
  let s3 := saveZoneEdit planarArea []
              (mutateGeometry 1 [rect 20 10] (editZone exactGeoJSON 1 s)) in
  (1%nat ∈ drawingZones s /\ uniqueIds s) /\
  area (zoneObjs s3 1%nat) = calculateArea planarArea (layerObjs s3 1%nat) /\
  currentEditingZone s3 = None.
Proof.
  assert (Hin : 1%nat ∈ drawingZones (exampleOneZone planarArea))
    by (vm_compute; constructor).
  assert (Huniq : uniqueIds (exampleOneZone planarArea)).
  { intros r r' Hr Hr' _. zone_cases Hr. zone_cases Hr'. reflexivity. }
  split; [split; [exact Hin | exact Huniq] |].
  pose proof (X8_saveZoneEdit_commits_current_geometry planarArea exactGeoJSON
                (exampleOneZone planarArea) 1%nat [rect 20 10] [] Hin Huniq) as H.
  destruct H as (_ & Harea & _ & _ & _ & _ & Hzone & _).
  split; [exact Harea | exact Hzone].
Defined.

(** X10 on the store with one zone: edit, delete, cancel. *)
Lemma X10_cancel_after_deleting_the_edited_zone_witness :
  let s := exampleOneZone planarArea in
  let s2 := deleteZone 1 (editZone exactGeoJSON 1 s) in
  let s3 := cancelZoneEdit planarArea exactLatLngs s2 in
  (1%nat ∈ drawingZones s /\ uniqueIds s /\ NoDup (drawingZones s)) /\
  (1%nat ∉ drawingZones s2) /\
  (1%nat ∈ drawnItems s3) /\
  drawingZones s3 = drawingZones s2.
Proof.
  assert (Hin : 1%nat ∈ drawingZones (exampleOneZone planarArea))
    by (vm_compute; constructor).
  assert (Huniq : uniqueIds (exampleOneZone planarArea)).
  { intros r r' Hr Hr' _. zone_cases Hr. zone_cases Hr'. reflexivity. }
  assert (Hnodup : NoDup (drawingZones (exampleOneZone planarArea))).
  { apply (bool_decide_unpack _). vm_compute. exact I. }
  split; [split; [exact Hin | split; [exact Huniq | exact Hnodup]] |].
  pose proof (X10_cancel_after_deleting_the_edited_zone planarArea exactGeoJSON
                exactLatLngs (exampleOneZone planarArea) 1%nat Hin Huniq Hnodup) as H.
  destruct H as (Hgone & _ & _ & Hzones & Hback & _).
  split; [exact Hgone | split; [exact Hback | exact Hzones]].
Defined.

(** X11 for 13030.5 kWh from a system of 10 kW. *)
Lemma X11_efficiency_score_is_a_percentage_witness :
  ((0 <= dec 130305 10)%Qc /\ (0 < Qc_of_Z 10)%Qc) /\
  exists k : Z,
    calculateEfficiencyScore (Fin (dec 130305 10)) (Fin (Qc_of_Z 10)) = int k /\
    (0 <= k <= 100)%Z.
Proof.
  assert (Houtput : (0 <= dec 130305 10)%Qc) by (vm_compute; discriminate).
  assert (Hsize : (0 < Qc_of_Z 10)%Qc) by (vm_compute; reflexivity).
  split; [split; [exact Houtput | exact Hsize] |].
  destruct (X11_efficiency_score_is_a_percentage (dec 130305 10) (Qc_of_Z 10)
              Houtput Hsize) as (k & Hk & Hrange & _).
  exists k. split; [exact Hk | exact Hrange].
Defined.



(** X14 on a series of 36000 seconds, a null entry and 5 hours, whose
    daily average is 7.5 hours. *)
Lemma X14_stored_figures_have_one_decimal_witness :
  let sunshine := [Some (int 36000); None; Some (int 5)] in
  (daily (fetchedSunlightData sunshine) = Fin (dec 75 10) /\ (0 <= dec 75 10)%Qc) /\
  exists k w m y : Z,
    daily (fetchedSunlightData sunshine) = div (int k) (int 10) /\
    weekly (fetchedSunlightData sunshine) = div (int w) (int 10) /\
    monthly (fetchedSunlightData sunshine) = div (int m) (int 10) /\
    yearly (fetchedSunlightData sunshine) = int y /\
    (0 <= w <= m)%Z /\ (0 <= y)%Z.
Proof.
  assert (Hdaily : daily (fetchedSunlightData [Some (int 36000); None; Some (int 5)])
                   = Fin (dec 75 10)) by num_eval.
  assert (Hnonneg : (0 <= dec 75 10)%Qc) by (vm_compute; discriminate).
  split; [split; [exact Hdaily | exact Hnonneg] |].
  exact (proj1 (X14_stored_figures_have_one_decimal
                  [Some (int 36000); None; Some (int 5)] (dec 75 10) Hdaily Hnonneg)).
Defined.

(** X15 on a series of two null entries. *)
Lemma X15_series_without_values_falls_back_witness :
  (forall x : option num, x ∈ [None; None] -> x = None) /\
  fetchedSunlightData [None; None] = mkSunlight NaN NaN NaN NaN.
Proof.
  assert (Hnulls : forall x : option num, x ∈ [None; None] -> x = None).
  { intros x Hx. apply elem_of_cons in Hx as [Hx | Hx]; [exact Hx |].
    apply elem_of_cons in Hx as [Hx | Hx]; [exact Hx |].
    by apply elem_of_nil in Hx. }
  split; [exact Hnulls |].
  exact (proj1 (X15_series_without_values_falls_back [None; None] Hnulls)).
Defined.

(** X16 on a series of 36000 seconds, a null entry and 5 hours. *)
Lemma X16_daily_average_within_a_day_witness :
  let sunshine := [Some (int 36000); None; Some (int 5)] in
  ((forall v, Some v ∈ sunshine ->
      exists q, v = Fin q /\ (0 <= q)%Qc /\ (q <= Qc_of_Z 86400)%Qc) /\
   (exists v, Some v ∈ sunshine) /\
   (Z.of_nat (length sunshine) <= 2 ^ 48)%Z) /\
  exists k : Z,
    daily (fetchedSunlightData sunshine) = div (int k) (int 10) /\
    (0 <= k <= 240)%Z.
Proof.
  assert (Hrange : forall v, Some v ∈ [Some (int 36000); None; Some (int 5)] ->
                     exists q, v = Fin q /\ (0 <= q)%Qc /\ (q <= Qc_of_Z 86400)%Qc).
  { intros v Hv.
    apply elem_of_cons in Hv as [Hv | Hv].
    { injection Hv as ->. exists (Qc_of_Z 36000).
      split; [reflexivity | split; vm_compute; discriminate]. }
    apply elem_of_cons in Hv as [Hv | Hv]; [discriminate Hv |].
    apply elem_of_cons in Hv as [Hv | Hv].
    { injection Hv as ->. exists (Qc_of_Z 5).
      split; [reflexivity | split; vm_compute; discriminate]. }
    by apply elem_of_nil in Hv. }
  assert (Hvalue : exists v, Some v ∈ [Some (int 36000); None; Some (int 5)]).
  { exists (int 36000). apply elem_of_cons. by left. }
  assert (Hlength : (Z.of_nat (length [Some (int 36000); None; Some (int 5)]) <= 2 ^ 48)%Z)
    by (vm_compute; discriminate).
  split; [split; [exact Hrange | split; [exact Hvalue | exact Hlength]] |].
  exact (X16_daily_average_within_a_day [Some (int 36000); None; Some (int 5)]
           Hrange Hvalue Hlength).
Defined.

(** X17 for the latitudes 30 and 50. *)
Lemma X17_fallback_estimate_by_latitude_band_witness :
  gt (Math_abs (Fin (Qc_of_Z 30))) (Math_abs (Fin (Qc_of_Z 50))) = false /\
  gt (daily (getFallbackSunlightData (Fin (Qc_of_Z 50))))
     (daily (getFallbackSunlightData (Fin (Qc_of_Z 30)))) = false.
Proof.
  assert (Hcloser : gt (Math_abs (Fin (Qc_of_Z 30))) (Math_abs (Fin (Qc_of_Z 50))) = false)
    by (vm_compute; reflexivity).
  split; [exact Hcloser |].
  exact (proj1 (proj2 (X17_fallback_estimate_by_latitude_band (Qc_of_Z 30) (Qc_of_Z 50)))
           Hcloser).
Defined.

(** X18 on a road followed by a house: the house is chosen, and it is
    one of the results. *)
Lemma X18_selectLocation_priorities_witness :
  let road := SearchItem.mk (int 60) (int 25) "road" None in
  let house := SearchItem.mk (int 61) (int 24) "house" (Some (mkAddress (Some "12"))) in
  selectLocation [road; house] = Some house /\ house ∈ [road; house].
Proof.
  cbv zeta.
  assert (Hsel : selectLocation
                   [SearchItem.mk (int 60) (int 25) "road" None;
                    SearchItem.mk (int 61) (int 24) "house" (Some (mkAddress (Some "12")))]
                 = Some (SearchItem.mk (int 61) (int 24) "house"
                           (Some (mkAddress (Some "12")))))
    by reflexivity.
  split; [exact Hsel |].
  exact (proj1 (proj2 (X18_selectLocation_priorities _)) _ Hsel).
Defined.

(** X19 on a single result of type city at (60, 25). *)
Lemma X19_locate_outcomes_witness :
  let city := SearchItem.mk (int 60) (int 25) "city" None in
  locate [city] = SetView (int 60) (int 25) 14 city /\ city ∈ [city].
Proof.
  cbv zeta.
  assert (Hloc : locate [SearchItem.mk (int 60) (int 25) "city" None]
                 = SetView (int 60) (int 25) 14
                     (SearchItem.mk (int 60) (int 25) "city" None))
    by reflexivity.
  split; [exact Hloc |].
  exact (proj1 (proj2 (X19_locate_outcomes _) _ _ _ _ Hloc)).
Defined.

(** X20 for daily averages of 3.0 and 5.0 hours. *)
Lemma X20_solar_rating_is_monotone_witness :
  (dec 30 10 <= dec 50 10)%Qc /\
  (rank (solarPotentialOf (Fin (dec 30 10))) <= rank (solarPotentialOf (Fin (dec 50 10))))%nat.
Proof.
  assert (Hle : (dec 30 10 <= dec 50 10)%Qc) by (vm_compute; discriminate).
  split; [exact Hle |].
  exact (proj1 (X20_solar_rating_is_monotone (dec 30 10) (dec 50 10) Hle)).
Defined.



